(** * ProfitPrincessAPI: the filter and sort engine of [vercel_app.py]

    A shallow embedding of [filter_income], [sort_income], [fetch_data] and
    the [/filter-sort-income] route, and the properties of the query engine.
    The route is there twice: on a decoded query whose three entries have
    the documented types ([filter_sort_income]), and on the raw [query]
    argument, with its guard, [json.loads] and entries of any JSON type
    ([Route.filter_sort_income]); [route_of_params] relates the two.

    Conventions of the embedding.
    - A Python [str] is a [string]; a character is read as the code point of
      the same number (0..255).
    - A Python [int] is a [Z].  A Python [float] is [FFin q] for the rational
      [q] it denotes, one of the two infinities, or NaN ([json.loads] reads
      the three); Python compares [int] and [float] by exact value, which
      is what [Qcompare] does, and every comparison with NaN is false.
    - A record of the income statement is a [dict] from field names to JSON
      scalars (null, booleans, numbers, strings), kept as an association
      list in insertion order; [dict_get] reads the first binding of a key.
    - The values of the query (the [fields] mapping) are arbitrary JSON.
    - A Python exception is a [Raise e]; every function that can raise
      returns a [result]. *)

From Stdlib Require Import ZArith QArith List String Ascii Bool Lia.
From Stdlib Require Import Permutation Sorted OrderedTypeEx.
Import ListNotations.

Local Open Scope string_scope.
Local Open Scope Z_scope.

(* ===================================================================== *)
(** ** Python values and exceptions *)
(* ===================================================================== *)

Module Py.

(** The exceptions the engine can raise.  [ValueError msg] is the one raised
    by the source itself (its message is modelled); [IntLiteralError s] is the
    [ValueError] of the builtin [int(s)]; [KeyError k] is a failed [d[k]];
    [TypeError] is an unsupported operand or a value that cannot be sliced.
    The messages of the builtin exceptions are not modelled: [TypeError]
    stands for every [TypeError], whatever operands its message names. *)
Inductive exn : Type :=
| ValueError (msg : string)
| IntLiteralError (s : string)
| KeyError (k : string)
| TypeError.

Inductive result (A : Type) : Type :=
| Ok (a : A)
| Raise (e : exn).
Arguments Ok {A} a.
Arguments Raise {A} e.

Definition bind {A B : Type} (r : result A) (f : A -> result B) : result B :=
  match r with
  | Ok a => f a
  | Raise e => Raise e
  end.

Definition rmap {A B : Type} (f : A -> B) (r : result A) : result B :=
  bind r (fun a => Ok (f a)).

Inductive float : Type :=
| FFin (q : Q)
| FPosInf
| FNegInf
| FNaN.

Inductive scalar : Type :=
| SNone
| SBool (b : bool)
| SInt (z : Z)
| SFloat (f : float)
| SStr (s : string).

#[warnings="-register-all"]
Inductive json : Type :=
| JAtom (a : scalar)
| JList (l : list json)
| JDict (d : list (string * json)).

(** A [dict] with string keys, in insertion order. *)
Definition dict (V : Type) : Type := list (string * V).

Definition record : Type := dict scalar.

End Py.
Export Py.

Declare Scope py_scope.
Delimit Scope py_scope with py.
Notation "x <- c ;; k" := (bind c (fun x => k))
  (at level 61, c at next level, right associativity) : py_scope.
Local Open Scope py_scope.

(* ===================================================================== *)
(** ** Dictionaries *)
(* ===================================================================== *)

Section Dict.
Context {V : Type}.

(** [d.get(k)] *)
Fixpoint dict_find (d : dict V) (k : string) : option V :=
  match d with
  | [] => None
  | (k', v) :: d' => if String.eqb k' k then Some v else dict_find d' k
  end.

(** [k in d] *)
Definition dict_mem (d : dict V) (k : string) : bool :=
  match dict_find d k with
  | Some _ => true
  | None => false
  end.

(** [d.get(k, default)] *)
Definition dict_get (d : dict V) (k : string) (default : V) : V :=
  match dict_find d k with
  | Some v => v
  | None => default
  end.

(** [d[k]] *)
Definition dict_item (d : dict V) (k : string) : result V :=
  match dict_find d k with
  | Some v => Ok v
  | None => Raise (KeyError k)
  end.

Definition dict_keys (d : dict V) : list string := map fst d.
End Dict.

(* ===================================================================== *)
(** ** Strings: [endswith], slices and [int] *)
(* ===================================================================== *)

(** [s.endswith(suffix)] *)
Definition str_endswith (s suffix : string) : bool :=
  let n := String.length s in
  let m := String.length suffix in
  (m <=? n)%nat && String.eqb (substring (n - m) m s) suffix.

(** [s[:-k]] *)
Definition str_drop_last (k : nat) (s : string) : string :=
  substring 0 (String.length s - k) s.

(** [s[:k]] *)
Fixpoint str_take (k : nat) (s : string) : string :=
  match k, s with
  | S k', String c s' => String c (str_take k' s')
  | _, _ => EmptyString
  end.

Definition is_digit (c : ascii) : bool :=
  let n := nat_of_ascii c in ((48 <=? n) && (n <=? 57))%nat.

Definition digit_val (c : ascii) : Z := Z.of_nat (nat_of_ascii c) - 48.

(** The white space [int] skips on both sides: tab, line feed, vertical tab,
    form feed, carriage return, space, and the two code points above 127
    that Unicode classes as white space (next line and no-break space). *)
Definition is_int_space (c : ascii) : bool :=
  let n := nat_of_ascii c in
  (((9 <=? n) && (n <=? 13)) || (n =? 32) || (n =? 133) || (n =? 160))%nat.

Fixpoint skip_space (s : string) : string :=
  match s with
  | String c s' => if is_int_space c then skip_space s' else s
  | EmptyString => s
  end.

(** Digits with single underscores between them.  [after_digit] tells whether
    the character before was a digit; the remainder of the string is
    returned with the value read. *)
Fixpoint int_digits (after_digit : bool) (acc : Z) (s : string)
  : option (Z * string) :=
  match s with
  | EmptyString => if after_digit then Some (acc, s) else None
  | String c s' =>
      if is_digit c then int_digits true (10 * acc + digit_val c) s'
      else if Ascii.eqb c "_"
           then (if after_digit then int_digits false acc s' else None)
           else (if after_digit then Some (acc, s) else None)
  end.

(** [int(s)] for a string, base 10: white space, an optional sign, digits,
    white space. *)
Definition int_literal (s : string) : option Z :=
  let s1 := skip_space s in
  let '(sign, s2) :=
    match s1 with
    | String "+" r => (1, r)
    | String "-" r => (-1, r)
    | _ => (1, s1)
    end in
  match int_digits false 0 s2 with
  | Some (v, rest) =>
      match skip_space rest with
      | EmptyString => Some (sign * v)
      | _ => None
      end
  | None => None
  end.

Definition py_int (s : string) : result Z :=
  match int_literal s with
  | Some z => Ok z
  | None => Raise (IntLiteralError s)
  end.

(** [v[:4]] on a scalar: only a string can be sliced. *)
Definition py_slice4 (v : scalar) : result string :=
  match v with
  | SStr s => Ok (str_take 4 s)
  | _ => Raise TypeError
  end.

(** [isinstance(v, str)] *)
Definition is_str (v : scalar) : bool :=
  match v with
  | SStr _ => true
  | _ => false
  end.

(* ===================================================================== *)
(** ** Comparisons *)
(* ===================================================================== *)

(** The order of two numbers; [None] when one of them is NaN. *)
Definition float_cmp (a b : float) : option comparison :=
  match a, b with
  | FNaN, _ => None
  | _, FNaN => None
  | FNegInf, FNegInf => Some Eq
  | FNegInf, _ => Some Lt
  | _, FNegInf => Some Gt
  | FPosInf, FPosInf => Some Eq
  | FPosInf, _ => Some Gt
  | _, FPosInf => Some Lt
  | FFin p, FFin q => Some (Qcompare p q)
  end.

(** The number a scalar denotes in a comparison ([bool] is a subclass of
    [int]); [None] for the scalars that are not numbers. *)
Definition to_num (v : scalar) : option float :=
  match v with
  | SBool b => Some (FFin (inject_Z (if b then 1 else 0)))
  | SInt z => Some (FFin (inject_Z z))
  | SFloat f => Some f
  | _ => None
  end.

(** The comparison behind [<], [<=]: numbers with numbers, strings with
    strings (by code point), anything else is a [TypeError].  [None] is the
    outcome of a comparison with NaN, for which [<], [<=] and [==] are all
    false. *)
Definition py_cmp (a b : scalar) : result (option comparison) :=
  match to_num a, to_num b with
  | Some x, Some y => Ok (float_cmp x y)
  | _, _ =>
      match a, b with
      | SStr s, SStr t => Ok (Some (String.compare s t))
      | _, _ => Raise TypeError
      end
  end.

(** [a <= b] *)
Definition py_le (a b : scalar) : result bool :=
  c <- py_cmp a b ;;
  Ok (match c with Some Lt | Some Eq => true | _ => false end).

(** [a < b] *)
Definition py_lt (a b : scalar) : result bool :=
  c <- py_cmp a b ;;
  Ok (match c with Some Lt => true | _ => false end).

(** [a == b]; never raises. *)
Definition py_eq (a b : scalar) : bool :=
  match to_num a, to_num b with
  | Some x, Some y =>
      match float_cmp x y with Some Eq => true | _ => false end
  | _, _ =>
      match a, b with
      | SStr s, SStr t => String.eqb s t
      | SNone, SNone => true
      | _, _ => false
      end
  end.

(** A bound of the query against a field of a record: a list or an object
    is not ordered with any scalar. *)
Definition bound_le_val (bound : json) (v : scalar) : result bool :=
  match bound with
  | JAtom a => py_le a v
  | _ => Raise TypeError
  end.

Definition val_le_bound (v : scalar) (bound : json) : result bool :=
  match bound with
  | JAtom a => py_le v a
  | _ => Raise TypeError
  end.

(** [lo <= v <= hi]: the second comparison is evaluated only when the first
    is true. *)
Definition py_between (lo : json) (v : scalar) (hi : json) : result bool :=
  b <- bound_le_val lo v ;;
  if b then val_le_bound v hi else Ok false.

(** [x is None] *)
Definition is_none (v : json) : bool :=
  match v with
  | JAtom SNone => true
  | _ => false
  end.

(** The truth value of a JSON value ([if v:], [not v]). *)
Definition py_truthy (v : json) : bool :=
  match v with
  | JAtom SNone => false
  | JAtom (SBool b) => b
  | JAtom (SInt z) => negb (z =? 0)
  | JAtom (SFloat (FFin q)) => negb (Qeq_bool q 0)
  | JAtom (SFloat _) => true
  | JAtom (SStr s) => negb (String.eqb s "")
  | JList l => match l with [] => false | _ => true end
  | JDict d => match d with [] => false | _ => true end
  end.

(* ===================================================================== *)
(** ** List comprehension and [sorted] *)
(* ===================================================================== *)

(** [[x for x in l if cond(x)]]: the condition is evaluated on the elements
    in order and the first exception ends the comprehension. *)
Fixpoint list_comp {A : Type} (cond : A -> result bool) (l : list A)
  : result (list A) :=
  match l with
  | [] => Ok []
  | x :: l' =>
      b <- cond x ;;
      rest <- list_comp cond l' ;;
      Ok (if b then x :: rest else rest)
  end.

(** [[f(x) for x in l]] *)
Fixpoint list_map_r {A B : Type} (f : A -> result B) (l : list A)
  : result (list B) :=
  match l with
  | [] => Ok []
  | x :: l' =>
      y <- f x ;;
      rest <- list_map_r f l' ;;
      Ok (y :: rest)
  end.

(** [a < b] as the sort reads it once the keys are known to be ordered. *)
Definition lt_key (a b : scalar) : bool :=
  match py_lt a b with
  | Ok true => true
  | _ => false
  end.

(** [a < b] does not raise. *)
Definition comparable (a b : scalar) : bool :=
  match py_lt a b with
  | Ok _ => true
  | Raise _ => false
  end.

(** Every [<] between two keys of the list is defined. *)
Definition mutually_orderable (keys : list scalar) : bool :=
  forallb (fun a => forallb (comparable a) keys) keys.

(** The key is NaN. *)
Definition is_nan (v : scalar) : bool :=
  match v with
  | SFloat FNaN => true
  | _ => false
  end.

Section Sorted.
Context {A : Type}.

(** Stable insertion: [x] stops in front of the first element that is not
    smaller than it. *)
Fixpoint insert_key (x : scalar * A) (l : list (scalar * A))
  : list (scalar * A) :=
  match l with
  | [] => [x]
  | y :: l' =>
      if lt_key (fst y) (fst x) then y :: insert_key x l' else x :: l
  end.

Fixpoint stable_sort (l : list (scalar * A)) : list (scalar * A) :=
  match l with
  | [] => []
  | x :: l' => insert_key x (stable_sort l')
  end.

(** With NaN among the keys [<] is not an order and the result of the sort
    is the result of its procedure.  [list.sort] takes the run that starts
    the list (ascending, or strictly descending and then reversed) and
    inserts the other items one by one at the place a binary search gives;
    this is all it does on fewer than 64 items.  (On 64 items or more it
    cuts the list in such pieces and merges them; the merge is not
    modelled.) *)

(** The run goes on with [x] after [prev]. *)
Fixpoint take_run (descending : bool) (prev : scalar * A)
    (l : list (scalar * A)) : list (scalar * A) * list (scalar * A) :=
  match l with
  | [] => ([], [])
  | x :: l' =>
      if Bool.eqb (lt_key (fst x) (fst prev)) descending then
        let '(run, rest) := take_run descending x l' in (x :: run, rest)
      else ([], l)
  end.

(** [count_run]: the first run, put in ascending order, and the rest. *)
Definition count_run (l : list (scalar * A))
  : list (scalar * A) * list (scalar * A) :=
  match l with
  | x :: y :: l' =>
      let descending := lt_key (fst y) (fst x) in
      let '(run, rest) := take_run descending y l' in
      (if descending then rev (x :: y :: run) else x :: y :: run, rest)
  | _ => (l, [])
  end.

(** The binary search of [binarysort] for the place of [pivot] in [a],
    between the positions [l] and [r]. *)
Fixpoint bisect (fuel : nat) (a : list (scalar * A)) (pivot : scalar * A)
    (l r : nat) : nat :=
  match fuel with
  | O => l
  | S fuel' =>
      if (l <? r)%nat then
        let p := (l + (r - l) / 2)%nat in
        if lt_key (fst pivot) (fst (nth p a pivot))
        then bisect fuel' a pivot l p
        else bisect fuel' a pivot (S p) r
      else l
  end.

Definition binary_insert (a : list (scalar * A)) (pivot : scalar * A)
  : list (scalar * A) :=
  let i := bisect (S (List.length a)) a pivot 0 (List.length a) in
  (firstn i a ++ pivot :: skipn i a)%list.

Definition run_sort (l : list (scalar * A)) : list (scalar * A) :=
  let '(run, rest) := count_run l in fold_left binary_insert rest run.

(** The sort of the pairs of a key and an item: on keys without NaN, the
    stable sort that [list.sort] is; with NaN, its procedure. *)
Definition sort_pairs (l : list (scalar * A)) : list (scalar * A) :=
  if existsb (fun p => is_nan (fst p)) l then run_sort l else stable_sort l.

(** [sorted(data, key=key, reverse=reverse)].  The keys are computed first,
    in order.  A list of fewer than two items is returned without a
    comparison.  Otherwise the sort compares keys with [<] only and raises
    [TypeError] when two keys are not ordered; on keys without NaN it is
    stable, and with [reverse] it sorts the reversed list and reverses the
    result, which keeps the input order among equal keys. *)
Definition py_sorted (key : A -> result scalar) (data : list A)
    (reverse : bool) : result (list A) :=
  keys <- list_map_r key data ;;
  if (List.length keys <? 2)%nat || mutually_orderable keys then
    let kv := combine keys data in
    let kv' := if reverse then rev kv else kv in
    let s := sort_pairs kv' in
    Ok (map snd (if reverse then rev s else s))
  else Raise TypeError.
End Sorted.

(* ===================================================================== *)
(** ** [vercel_app.py] *)
(* ===================================================================== *)

(** The condition of the comprehension of the [date] branch:
    [min_year <= int(record.get(base_field, "0000-00-00")[:4]) <= max_year]. *)
Definition date_cond (base_field : string) (min_year max_year : json)
    (r : record) : result bool :=
  s <- py_slice4 (dict_get r base_field (SStr "0000-00-00")) ;;
  y <- py_int s ;;
  py_between min_year (SInt y) max_year.

(** The condition of the comprehension of the numeric branch:
    [min_value <= record.get(base_field, float('inf')) <= max_value]. *)
Definition num_cond (base_field : string) (min_value max_value : json)
    (r : record) : result bool :=
  py_between min_value (dict_get r base_field (SFloat FPosInf)) max_value.

(** One turn of the loop over [filter_fields.items()].  A key that ends in
    [_max] is skipped by the [elif], any other key by neither branch. *)
Definition filter_step (filter_fields : dict json)
    (filtered_data : list record) (item : string * json)
  : result (list record) :=
  let '(field, value) := item in
  if str_endswith field "_min" then
    let base_field := str_drop_last 4 field in
    let min_value := value in
    let max_value :=
      dict_get filter_fields (base_field ++ "_max") (JAtom SNone) in
    if negb (is_none max_value) then
      if String.eqb base_field "date" then
        list_comp (date_cond base_field min_value max_value) filtered_data
      else
        list_comp (num_cond base_field min_value max_value) filtered_data
    else Ok filtered_data
  else Ok filtered_data.

Fixpoint filter_loop (filter_fields : dict json) (items : dict json)
    (filtered_data : list record) : result (list record) :=
  match items with
  | [] => Ok filtered_data
  | item :: items' =>
      d <- filter_step filter_fields filtered_data item ;;
      filter_loop filter_fields items' d
  end.

Definition filter_income (data : list record) (filter_fields : dict json)
  : result (list record) :=
  filter_loop filter_fields filter_fields data.

Definition invalid_field_msg (field : string) : string :=
  "Invalid field '" ++ field ++ "'. Please provide a valid field name.".

(** The [key] of the call to [sorted]. *)
Definition sort_key (field : string) (x : record) : result scalar :=
  v <- dict_item x field ;;
  if String.eqb field "date" && is_str v then
    s <- py_slice4 v ;;
    y <- py_int s ;;
    Ok (SInt y)
  else Ok v.

Definition sort_income (data : list record) (field : string)
    (ascending : bool) : result (list record) :=
  match data with
  | [] => Ok []
  | first :: _ =>
      if negb (dict_mem first field) then
        Raise (ValueError (invalid_field_msg field))
      else py_sorted (sort_key field) data (negb ascending)
  end.

(** The parsed query of the route when its entries have the documented
    types: the three keys the route reads, [None] when the key is absent.
    The route on any query is [Route.filter_sort_income] below. *)
Record params : Type := {
  sort_field : option string;
  ascending : option bool;
  fields : option (dict json)
}.

(** The answer of the route: the JSON body and the status. *)
Inductive response : Type :=
| Data (body : list record) (status : Z)
| Error (e : exn) (status : Z).

(** The body of the [try] of [filter_sort_income] on the parsed query. *)
Definition filter_sort_body (current_income : list record)
    (params_dict : params) : result (list record) :=
  let sort_field := sort_field params_dict in
  let ascending :=
    match ascending params_dict with Some b => b | None => true end in
  let filter_fields :=
    match fields params_dict with Some f => f | None => [] end in
  filtered_data <- filter_income current_income filter_fields ;;
  match sort_field with
  | Some f =>
      if negb (String.eqb f "") then sort_income filtered_data f ascending
      else Ok filtered_data
  | None => Ok filtered_data
  end.

Definition filter_sort_income (current_income : list record)
    (params_dict : params) : response :=
  match filter_sort_body current_income params_dict with
  | Ok filtered_data => Data filtered_data 200
  | Raise e => Error e 400
  end.

(* ===================================================================== *)
(** ** [vercel_app.py]: the route on the raw query *)
(* ===================================================================== *)

(** [params] is what [request.args.get('query')] returns: [None] without a
    [query] argument, the text of the argument otherwise.  The decoder
    [json.loads] is a parameter of the route, [None] where it raises, and
    the values it returns are arbitrary JSON: [sort_field], [ascending] and
    [fields] need not be a string, a boolean and an object.  What the [try]
    catches is named by its cause; the text [str(e)] of the answer is not
    modelled. *)
Module Route.

Inductive raised : Type :=
| LoadsError                                  (* [json.loads(params)] *)
| AttributeError (v : json) (attr : string)   (* [v.attr], [v] without it *)
| UnhashableField (field : json)              (* [field in data[0]] *)
| InvalidField (field : json)                 (* the [ValueError] of the sort *)
| Engine (e : exn).                           (* raised inside the engines *)

(** The answer of the route: the JSON body and the status. *)
Inductive response : Type :=
| Data (body : list record) (status : Z)
| ParamsRequired (status : Z)
| Error (e : raised) (status : Z).

Definition try_ {A B : Type} (r : raised + A) (k : A -> raised + B)
  : raised + B :=
  match r with
  | inl e => inl e
  | inr a => k a
  end.

Definition of_result {A : Type} (r : result A) : raised + A :=
  match r with
  | Ok a => inr a
  | Raise e => inl (Engine e)
  end.

(** [params_dict.get(key, default)]: only an object has a [get]. *)
Definition get (params_dict : json) (key : string) (default : json)
  : raised + json :=
  match params_dict with
  | JDict d => inr (dict_get d key default)
  | v => inl (AttributeError v "get")
  end.

(** [filter_income(data, filter_fields)]: only an object has [items]. *)
Definition filter_income (data : list record) (filter_fields : json)
  : raised + list record :=
  match filter_fields with
  | JDict f => of_result (filter_income data f)
  | v => inl (AttributeError v "items")
  end.

(** [sort_income(data, field, ascending)]: a [field] that is not a string is
    no key of a record, and a list or an object cannot be looked up at
    all; the direction is [reverse=not ascending]. *)
Definition sort_income (data : list record) (field ascending : json)
  : raised + list record :=
  match field with
  | JAtom (SStr f) => of_result (sort_income data f (py_truthy ascending))
  | JAtom _ =>
      match data with
      | [] => inr []
      | _ :: _ => inl (InvalidField field)
      end
  | _ =>
      match data with
      | [] => inr []
      | _ :: _ => inl (UnhashableField field)
      end
  end.

Section Decoder.
Variable json_loads : string -> option json.

(** The body of the [try]. *)
Definition filter_sort_body (current_income : list record) (params : string)
  : raised + list record :=
  match json_loads params with
  | None => inl LoadsError
  | Some params_dict =>
      try_ (get params_dict "sort_field" (JAtom SNone)) (fun sort_field =>
      try_ (get params_dict "ascending" (JAtom (SBool true))) (fun ascending =>
      try_ (get params_dict "fields" (JDict [])) (fun filter_fields =>
      try_ (filter_income current_income filter_fields) (fun filtered_data =>
      if py_truthy sort_field
      then sort_income filtered_data sort_field ascending
      else inr filtered_data))))
  end.

Definition filter_sort_income (current_income : list record)
    (params : option string) : response :=
  match params with
  | None => ParamsRequired 400
  | Some EmptyString => ParamsRequired 400
  | Some query =>
      match filter_sort_body current_income query with
      | inr filtered_data => Data filtered_data 200
      | inl e => Error e 400
      end
  end.
End Decoder.

End Route.

(* ===================================================================== *)
(** ** [vercel_app.py]: the company profiles *)
(* ===================================================================== *)

(** The white space [str.strip()] removes: the six characters [int] skips,
    the four separators 28..31, next line and no-break space. *)
Definition is_strip_space (c : ascii) : bool :=
  let n := nat_of_ascii c in
  (((9 <=? n) && (n <=? 13)) || ((28 <=? n) && (n <=? 32))
   || (n =? 133) || (n =? 160))%nat.

(** [s.lstrip()] *)
Fixpoint str_lstrip (s : string) : string :=
  match s with
  | String c s' => if is_strip_space c then str_lstrip s' else s
  | EmptyString => s
  end.

(** [s.rstrip()] *)
Fixpoint str_rstrip (s : string) : string :=
  match s with
  | EmptyString => EmptyString
  | String c s' =>
      match str_rstrip s' with
      | EmptyString => if is_strip_space c then EmptyString
                       else String c EmptyString
      | t => String c t
      end
  end.

(** [s.strip()] *)
Definition str_strip (s : string) : string := str_rstrip (str_lstrip s).

(** A row of [csv.DictReader]: the columns of the header, with [None] for a
    column the row is too short for. *)
Definition profile : Type := dict scalar.

(** What [fetch_data] raises; the route does not catch it. *)
Inductive lookup_error : Type :=
| AttributeError
| MissingKey (k : string).

(** [v.strip()]: only a string has the method. *)
Definition py_strip (v : scalar) : lookup_error + string :=
  match v with
  | SStr s => inr (str_strip s)
  | _ => inl AttributeError
  end.

(** The condition of the generator of [fetch_data]:
    [profile['symbol'].strip() == symbol.strip()], where [symbol] is [None]
    when the request has no [query]. *)
Definition symbol_matches (symbol : option string) (p : profile)
  : lookup_error + bool :=
  match dict_find p "symbol" with
  | None => inl (MissingKey "symbol")
  | Some v =>
      match py_strip v with
      | inl e => inl e
      | inr a =>
          match symbol with
          | None => inl AttributeError
          | Some s => inr (String.eqb a (str_strip s))
          end
      end
  end.

(** [next((profile for profile in bulk_profiles if cond(profile)), None)] *)
Fixpoint next_match (symbol : option string) (bulk_profiles : list profile)
  : lookup_error + option profile :=
  match bulk_profiles with
  | [] => inr None
  | p :: rest =>
      match symbol_matches symbol p with
      | inl e => inl e
      | inr true => inr (Some p)
      | inr false => next_match symbol rest
      end
  end.

(** [fetch_profiles], as the global it leaves: [remote] is the list of rows
    of a 200 answer, [None] for any other answer or a failed request. *)
Definition fetch_profiles (remote : option (list profile))
    (bulk_profiles : list profile) : list profile :=
  match remote with
  | Some rows => rows
  | None => bulk_profiles
  end.

(** The answer of [fetch_data]. *)
Inductive lookup_response : Type :=
| Company (body : profile) (status : Z)
| NotFound (status : Z).

(** [fetch_data]: the answer, or the exception it lets through, and the
    global [bulk_profiles] after the call. *)
Definition fetch_data (remote : option (list profile))
    (bulk_profiles : list profile) (symbol : option string)
  : (lookup_error + lookup_response) * list profile :=
  let bulk_profiles :=
    match bulk_profiles with
    | [] => fetch_profiles remote bulk_profiles
    | _ => bulk_profiles
    end in
  match next_match symbol bulk_profiles with
  | inl e => (inl e, bulk_profiles)
  | inr (Some company) =>
      match company with
      | [] => (inr (NotFound 404), bulk_profiles)
      | _ => (inr (Company company 200), bulk_profiles)
      end
  | inr None => (inr (NotFound 404), bulk_profiles)
  end.

(* ===================================================================== *)
(** ** Vocabulary of the properties *)
(* ===================================================================== *)

(** A condition holds of a record when it evaluates to [True]. *)
Definition ok_true (r : result bool) : bool :=
  match r with
  | Ok true => true
  | _ => false
  end.

(** The range filter an item of [filter_fields] stands for: a key [b_min]
    whose partner [b_max] has a value other than [None]. *)
Definition item_cond (filter_fields : dict json) (item : string * json)
  : option (record -> result bool) :=
  let '(field, value) := item in
  if str_endswith field "_min" then
    let base_field := str_drop_last 4 field in
    let max_value :=
      dict_get filter_fields (base_field ++ "_max") (JAtom SNone) in
    if is_none max_value then None
    else if String.eqb base_field "date"
         then Some (date_cond base_field value max_value)
         else Some (num_cond base_field value max_value)
  else None.

(** The record satisfies every range filter among [items]. *)
Definition passes_items (filter_fields items : dict json) (r : record)
  : bool :=
  forallb (fun item =>
             match item_cond filter_fields item with
             | Some c => ok_true (c r)
             | None => true
             end) items.

Definition passes (filter_fields : dict json) (r : record) : bool :=
  passes_items filter_fields filter_fields r.

(** The year of a record as the date filter reads it: the integer written by
    the first four characters of [date], and 0 when the field is missing. *)
Definition year_of (r : record) : option Z :=
  match dict_find r "date" with
  | None => Some 0
  | Some (SStr s) => int_literal (str_take 4 s)
  | Some _ => None
  end.

(** [a <= b] on numbers. *)
Definition num_le (a b : float) : bool :=
  match float_cmp a b with
  | Some Lt | Some Eq => true
  | _ => false
  end.

Definition of_int (z : Z) : float := FFin (inject_Z z).

(** [lo <= year <= hi] *)
Definition year_in (lo hi : float) (r : record) : bool :=
  match year_of r with
  | Some y => num_le lo (of_int y) && num_le (of_int y) hi
  | None => false
  end.

(** The number a numeric filter compares: the field of the record, and plus
    infinity when the record has no such field. *)
Definition field_num (base_field : string) (r : record) : option float :=
  match dict_find r base_field with
  | None => Some FPosInf
  | Some v => to_num v
  end.

Definition num_in (base_field : string) (lo hi : float) (r : record) : bool :=
  match field_num base_field r with
  | Some x => num_le lo x && num_le x hi
  | None => false
  end.

(** The keys the filter reads. *)
Definition is_range_key (k : string) : bool :=
  str_endswith k "_min" || str_endswith k "_max".

Definition restrict_range_keys (filter_fields : dict json) : dict json :=
  filter (fun item => is_range_key (fst item)) filter_fields.

(** [l1] is [l2] with some elements left out. *)
Inductive subseq {A : Type} : list A -> list A -> Prop :=
| subseq_nil : subseq [] []
| subseq_skip (x : A) (l1 l2 : list A) : subseq l1 l2 -> subseq l1 (x :: l2)
| subseq_keep (x : A) (l1 l2 : list A) :
    subseq l1 l2 -> subseq (x :: l1) (x :: l2).

(** [u] is the union of the mappings [f1] and [f2], and gives every key one
    value. *)
Definition is_union (u f1 f2 : dict json) : Prop :=
  NoDup (dict_keys u) /\ forall item, In item u <-> In item f1 \/ In item f2.

(** A record on which an active date filter raises: its [date] is not a
    string, or the first four characters of the string are not an integer
    literal (this covers the empty string). *)
Definition bad_date (r : record) : Prop :=
  match dict_find r "date" with
  | None => False
  | Some (SStr s) => int_literal (str_take 4 s) = None
  | Some _ => True
  end.

(** The sort key classes: the records whose key is equal ([==]) to [k]. *)
Definition has_key (field : string) (k : scalar) (r : record) : bool :=
  match sort_key field r with
  | Ok k' => py_eq k k'
  | Raise _ => false
  end.

(** No two records at different positions have equal keys. *)
Fixpoint distinct_keys (keys : list scalar) : bool :=
  match keys with
  | [] => true
  | k :: keys' => forallb (fun k' => negb (py_eq k k')) keys' && distinct_keys keys'
  end.

(** The strict order of the sort on the pairs of a key and an item, and the
    pairs that are strictly ordered one way or the other. *)
Definition key_lt {A : Type} (p q : scalar * A) : Prop :=
  lt_key (fst p) (fst q) = true.

Definition key_apart {A : Type} (p q : scalar * A) : Prop :=
  key_lt p q \/ key_lt q p.

(** The keys [sorted] computes for the records. *)
Definition sort_keys (field : string) (data : list record)
  : result (list scalar) :=
  list_map_r (sort_key field) data.

(** The sorted pairs of [py_sorted]. *)
Definition sorted_pairs {A : Type} (keys : list scalar) (data : list A)
    (reverse : bool) : list (scalar * A) :=
  let kv := combine keys data in
  if reverse then rev (sort_pairs (rev kv)) else sort_pairs kv.

(** No item of the mapping is a range filter: every key that ends in
    [_min] has no partner [_max], or a partner whose value is [None]. *)
Definition no_active_filter (filter_fields : dict json) : Prop :=
  forall k v,
    In (k, v) filter_fields -> str_endswith k "_min" = true ->
    is_none (dict_get filter_fields (str_drop_last 4 k ++ "_max")
                      (JAtom SNone)) = true.

(** A value of the mapping that is a number. *)
Definition json_num (v : json) : option float :=
  match v with
  | JAtom a => to_num a
  | _ => None
  end.

(** [b] is not less than [a]: the order of an ascending result. *)
Definition key_le (a b : scalar) : Prop := py_lt b a = Ok false.

(** The order [sort_income] leaves the keys in. *)
Definition keys_sorted (ascending : bool) (keys : list scalar) : Prop :=
  StronglySorted (if ascending then key_le else fun a b => key_le b a) keys.

(** The profile matches the symbol. *)
Definition is_match (symbol : option string) (p : profile) : Prop :=
  symbol_matches symbol p = inr true.

(** The same orders on the pairs of a key and an item. *)
Definition pair_le {A : Type} (p q : scalar * A) : Prop :=
  key_le (fst p) (fst q).

Definition pair_ge {A : Type} (p q : scalar * A) : Prop :=
  key_le (fst q) (fst p).

(** A string made of the white space [strip] removes. *)
Fixpoint all_space (s : string) : bool :=
  match s with
  | EmptyString => true
  | String c s' => is_strip_space c && all_space s'
  end.

(** The mapping the route works with. *)
Definition query_fields (q : params) : dict json :=
  match fields q with Some f => f | None => [] end.

(** The profiles [fetch_data] searches. *)
Definition searched_profiles (remote : option (list profile))
    (bulk_profiles : list profile) : list profile :=
  match bulk_profiles with
  | [] => fetch_profiles remote bulk_profiles
  | _ => bulk_profiles
  end.

(** The item [q] that follows [p] is not less than [p], and the lists in
    which this holds of every two neighbours. *)
Definition key_step {A : Type} (p q : scalar * A) : Prop :=
  lt_key (fst q) (fst p) = false.

Definition no_descent {A : Type} (l : list (scalar * A)) : Prop :=
  Sorted key_step l.


(** No pair of the list has a NaN key. *)
Definition nan_free {A : Type} (l : list (scalar * A)) : bool :=
  negb (existsb (fun p => is_nan (fst p)) l).

(** No record of the data has a NaN sort key. *)
Definition no_nan_key (field : string) (data : list record) : Prop :=
  forall r, In r data -> sort_key field r <> Ok (SFloat FNaN).

(** The three entries of the decoded query the route reads, with the
    defaults of its [get]. *)
Definition raw_sort_field (d : dict json) : json :=
  dict_get d "sort_field" (JAtom SNone).

Definition raw_ascending (d : dict json) : json :=
  dict_get d "ascending" (JAtom (SBool true)).

Definition raw_fields (d : dict json) : json :=
  dict_get d "fields" (JDict []).

Definition is_object (v : json) : bool :=
  match v with
  | JDict _ => true
  | _ => false
  end.

(** The object of a typed query, and the raw answer of a typed one. *)
Definition params_object (q : params) : dict json :=
  ((match sort_field q with
    | Some f => [("sort_field", JAtom (SStr f))]
    | None => []
    end)
   ++ (match ascending q with
       | Some b => [("ascending", JAtom (SBool b))]
       | None => []
       end)
   ++ (match fields q with
       | Some f => [("fields", JDict f)]
       | None => []
       end))%list.

Definition route_response (r : response) : Route.response :=
  match r with
  | Data body status => Route.Data body status
  | Error e status => Route.Error (Route.Engine e) status
  end.

(** Examples of queries: the text [s] between double quotes, four query
    texts, and a decoder that reads these texts, the empty object and the
    list of 1 as [json.loads] does, and nothing else. *)
Definition quoted (s : string) : string :=
  String (ascii_of_nat 34) (s ++ String (ascii_of_nat 34) EmptyString).

Definition query_no_such_field : string :=
  "{" ++ quoted "sort_field" ++ ": " ++ quoted "no such field" ++ ", "
  ++ quoted "ascending" ++ ": false, "
  ++ quoted "fields" ++ ": {" ++ quoted "revenue_min" ++ ": 500, "
  ++ quoted "revenue_max" ++ ": 900}}".

Definition query_null_ascending : string :=
  "{" ++ quoted "sort_field" ++ ": " ++ quoted "revenue" ++ ", "
  ++ quoted "ascending" ++ ": null, "
  ++ quoted "fields" ++ ": {" ++ quoted "revenue_min" ++ ": 150, "
  ++ quoted "revenue_max" ++ ": 900}}".

Definition query_null_fields : string :=
  "{" ++ quoted "fields" ++ ": null}".

Definition sample_loads : string -> option json :=
  dict_find
    [(query_no_such_field,
      JDict [("sort_field", JAtom (SStr "no such field"));
             ("ascending", JAtom (SBool false));
             ("fields", JDict [("revenue_min", JAtom (SInt 500));
                               ("revenue_max", JAtom (SInt 900))])]);
     (query_null_ascending,
      JDict [("sort_field", JAtom (SStr "revenue"));
             ("ascending", JAtom SNone);
             ("fields", JDict [("revenue_min", JAtom (SInt 150));
                               ("revenue_max", JAtom (SInt 900))])]);
     (query_null_fields, JDict [("fields", JAtom SNone)]);
     ("{}", JDict []);
     ("[1]", JList [JAtom (SInt 1)])].

(** What a call returned, when it did not raise. *)
Definition returned {A : Type} (r : result A) : option A :=
  match r with
  | Ok a => Some a
  | Raise _ => None
  end.

(* ===================================================================== *)
(** ** Results *)
(* ===================================================================== *)

Lemma bind_ok {A B : Type} (r : result A) (f : A -> result B) (b : B) :
  bind r f = Ok b -> exists a, r = Ok a /\ f a = Ok b.
Proof.
  destruct r as [a|e]; simpl; intros H; [eauto | discriminate].
Qed.

Lemma list_comp_ok {A : Type} (cond : A -> result bool) (l l' : list A) :
  list_comp cond l = Ok l' ->
  l' = filter (fun x => ok_true (cond x)) l /\
  forall x, In x l -> exists b, cond x = Ok b.
Proof.
  revert l'. induction l as [|x l IH]; simpl; intros l' H.
  - inversion H; subst. split; [reflexivity | intros ? []].
  - apply bind_ok in H. destruct H as [b [Hb H]].
    apply bind_ok in H. destruct H as [rest [Hrest H]].
    inversion H; subst; clear H.
    destruct (IH _ Hrest) as [-> Hall].
    split.
    + rewrite Hb. destruct b; reflexivity.
    + intros y [<-|Hy]; eauto.
Qed.

Lemma list_comp_all_true {A : Type} (cond : A -> result bool) (l : list A) :
  (forall x, In x l -> cond x = Ok true) -> list_comp cond l = Ok l.
Proof.
  induction l as [|x l IH]; simpl; intros H; [reflexivity|].
  rewrite (H x (or_introl eq_refl)). simpl.
  rewrite IH by auto. reflexivity.
Qed.

Lemma list_comp_total {A : Type} (cond : A -> result bool) (l : list A) :
  (forall x, In x l -> exists b, cond x = Ok b) ->
  list_comp cond l = Ok (filter (fun x => ok_true (cond x)) l).
Proof.
  induction l as [|x l IH]; simpl; intros H; [reflexivity|].
  destruct (H x (or_introl eq_refl)) as [b Hb]. rewrite Hb. simpl.
  rewrite IH by auto. simpl. destruct b; reflexivity.
Qed.

Lemma list_comp_raises {A : Type} (cond : A -> result bool) (l : list A)
    (x : A) :
  In x l -> (exists e, cond x = Raise e) -> exists e, list_comp cond l = Raise e.
Proof.
  intros Hin [e He].
  destruct (list_comp cond l) as [l'|e'] eqn:H; [|eauto].
  apply list_comp_ok in H. destruct H as [_ Hall].
  destruct (Hall x Hin) as [b Hb]. congruence.
Qed.

Lemma ok_true_iff (r : result bool) : ok_true r = true <-> r = Ok true.
Proof.
  destruct r as [[|]|e]; simpl; split; intros H; congruence.
Qed.

(* ===================================================================== *)
(** ** Lists *)
(* ===================================================================== *)

Lemma filter_filter {A : Type} (p q : A -> bool) (l : list A) :
  filter q (filter p l) = filter (fun x => p x && q x) l.
Proof.
  induction l as [|x l IH]; simpl; [reflexivity|].
  destruct (p x); simpl; [destruct (q x)|]; rewrite IH; reflexivity.
Qed.

Lemma filter_all {A : Type} (p : A -> bool) (l : list A) :
  (forall x, In x l -> p x = true) -> filter p l = l.
Proof.
  induction l as [|x l IH]; simpl; intros H; [reflexivity|].
  rewrite (H x (or_introl eq_refl)), IH by auto. reflexivity.
Qed.

Lemma subseq_refl {A : Type} (l : list A) : subseq l l.
Proof. induction l; constructor; assumption. Qed.

Lemma subseq_filter {A : Type} (p : A -> bool) (l : list A) :
  subseq (filter p l) l.
Proof.
  induction l as [|x l IH]; simpl; [constructor|].
  destruct (p x); constructor; assumption.
Qed.

Lemma subseq_filter_imp {A : Type} (p q : A -> bool) (l : list A) :
  (forall x, In x l -> p x = true -> q x = true) ->
  subseq (filter p l) (filter q l).
Proof.
  induction l as [|x l IH]; simpl; intros H; [constructor|].
  assert (IH' : subseq (filter p l) (filter q l)) by (apply IH; auto).
  destruct (p x) eqn:Hp.
  - rewrite (H x (or_introl eq_refl) Hp). constructor; assumption.
  - destruct (q x); [constructor|]; assumption.
Qed.

(* ===================================================================== *)
(** ** Strings and dictionaries *)
(* ===================================================================== *)

Lemma substring_all (s : string) : substring 0 (String.length s) s = s.
Proof. induction s as [|c s IH]; simpl; [|rewrite IH]; reflexivity. Qed.

Lemma substring_app_l (a b : string) :
  substring 0 (String.length a) (a ++ b) = a.
Proof.
  induction a as [|c a IH]; simpl.
  - destruct b; reflexivity.
  - rewrite IH. reflexivity.
Qed.

Lemma substring_app_r (a b : string) :
  substring (String.length a) (String.length b) (a ++ b) = b.
Proof.
  induction a as [|c a IH]; simpl; [apply substring_all | exact IH].
Qed.

Lemma length_app (a b : string) :
  String.length (a ++ b) = (String.length a + String.length b)%nat.
Proof. induction a as [|c a IH]; simpl; [|rewrite IH]; reflexivity. Qed.

Lemma str_endswith_app (a b c : string) :
  String.length b = String.length c ->
  str_endswith (a ++ b) c = String.eqb b c.
Proof.
  intros Hlen. unfold str_endswith. rewrite length_app, <- Hlen.
  replace (String.length b <=? String.length a + String.length b)%nat
    with true by (symmetry; apply Nat.leb_le; lia).
  replace (String.length a + String.length b - String.length b)%nat
    with (String.length a) by lia.
  rewrite substring_app_r. reflexivity.
Qed.

Lemma str_drop_last_app (a b : string) :
  str_drop_last (String.length b) (a ++ b) = a.
Proof.
  unfold str_drop_last. rewrite length_app.
  replace (String.length a + String.length b - String.length b)%nat
    with (String.length a) by lia.
  apply substring_app_l.
Qed.

(** A key that ends in a suffix is its [s[:-k]] followed by the suffix. *)
Lemma str_endswith_split (s suffix : string) :
  str_endswith s suffix = true ->
  s = str_drop_last (String.length suffix) s ++ suffix.
Proof.
  unfold str_endswith, str_drop_last. intros H.
  apply andb_prop in H. destruct H as [Hle Heq].
  apply Nat.leb_le in Hle. apply String.eqb_eq in Heq.
  remember (String.length suffix) as m eqn:Hm. clear Hm.
  rewrite <- Heq. clear Heq suffix.
  remember (String.length s - m)%nat as k eqn:Hk.
  assert (Hlen : String.length s = (k + m)%nat) by lia. clear Hk Hle.
  revert k Hlen. induction s as [|c s IH]; intros k Hlen.
  - simpl in Hlen. assert (k = 0%nat) by lia. assert (m = 0%nat) by lia.
    subst. reflexivity.
  - destruct k as [|k].
    + simpl in Hlen. subst m. simpl. rewrite substring_all. reflexivity.
    + simpl. rewrite <- IH; [reflexivity | simpl in Hlen; lia].
Qed.

Lemma is_range_key_max (base : string) : is_range_key (base ++ "_max") = true.
Proof.
  unfold is_range_key.
  rewrite (str_endswith_app base "_max" "_max") by reflexivity.
  apply orb_true_r.
Qed.

Lemma dict_find_In {V : Type} (d : dict V) (k : string) (v : V) :
  dict_find d k = Some v -> In (k, v) d.
Proof.
  induction d as [|[k' v'] d IH]; simpl; [discriminate|].
  destruct (String.eqb_spec k' k) as [->|Hne]; intros H.
  - inversion H; subst. left; reflexivity.
  - right; auto.
Qed.

Lemma In_dict_find {V : Type} (d : dict V) (k : string) (v : V) :
  NoDup (dict_keys d) -> In (k, v) d -> dict_find d k = Some v.
Proof.
  induction d as [|[k' v'] d IH]; simpl; intros Hnd Hin; [contradiction|].
  inversion Hnd as [|? ? Hnotin Hnd']; subst.
  destruct Hin as [Heq|Hin].
  - inversion Heq; subst. rewrite String.eqb_refl. reflexivity.
  - destruct (String.eqb_spec k' k) as [->|Hne]; [|auto].
    exfalso. apply Hnotin. unfold dict_keys.
    change k with (fst (k, v)). apply in_map. exact Hin.
Qed.

Lemma dict_find_restrict (f : dict json) (k : string) :
  is_range_key k = true ->
  dict_find (restrict_range_keys f) k = dict_find f k.
Proof.
  intros Hk. induction f as [|[k' v'] f IH]; simpl; [reflexivity|].
  destruct (is_range_key k') eqn:Hk'; simpl.
  - rewrite IH. reflexivity.
  - destruct (String.eqb_spec k' k) as [->|Hne]; [congruence | exact IH].
Qed.

(* ===================================================================== *)
(** ** The loop of [filter_income] *)
(* ===================================================================== *)

Lemma filter_step_cond (f : dict json) (d : list record)
    (item : string * json) :
  filter_step f d item =
  match item_cond f item with
  | Some c => list_comp c d
  | None => Ok d
  end.
Proof.
  destruct item as [field value]. unfold filter_step, item_cond.
  destruct (str_endswith field "_min"); [|reflexivity].
  destruct (is_none _); simpl; [reflexivity|].
  destruct (String.eqb _ "date"); reflexivity.
Qed.

(** When the loop returns, it returns the records that pass the items. *)
Lemma filter_loop_ok (f items : dict json) (d d' : list record) :
  filter_loop f items d = Ok d' -> d' = filter (passes_items f items) d.
Proof.
  revert d d'. induction items as [|item items IH]; simpl; intros d d' H.
  - inversion H; subst. symmetry. apply filter_all. reflexivity.
  - apply bind_ok in H. destruct H as [d1 [H1 H2]].
    apply IH in H2. subst d'. rewrite filter_step_cond in H1.
    destruct (item_cond f item) as [c|] eqn:Hc.
    + apply list_comp_ok in H1. destruct H1 as [-> _].
      rewrite filter_filter. apply filter_ext. intros r.
      unfold passes_items. simpl. rewrite Hc. reflexivity.
    + inversion H1; subst. apply filter_ext. intros r.
      unfold passes_items. simpl. rewrite Hc. reflexivity.
Qed.

(** The loop leaves alone a list whose records all pass. *)
Lemma filter_loop_fixed (f items : dict json) (d : list record) :
  (forall r, In r d -> passes_items f items r = true) ->
  filter_loop f items d = Ok d.
Proof.
  induction items as [|item items IH]; simpl; intros H; [reflexivity|].
  rewrite filter_step_cond.
  assert (Hrest : forall r, In r d -> passes_items f items r = true).
  { intros r Hr. apply H in Hr. apply andb_prop in Hr. tauto. }
  destruct (item_cond f item) as [c|] eqn:Hc; simpl.
  - rewrite list_comp_all_true; simpl; [auto|].
    intros r Hr. apply H in Hr. apply andb_prop in Hr.
    apply ok_true_iff. tauto.
  - auto.
Qed.

(** The loop returns when every condition it evaluates is defined. *)
Lemma filter_loop_total (f items : dict json) (d : list record) :
  (forall item c r, In item items -> item_cond f item = Some c -> In r d ->
                    exists b, c r = Ok b) ->
  filter_loop f items d = Ok (filter (passes_items f items) d).
Proof.
  revert d. induction items as [|item items IH]; simpl; intros d H.
  - rewrite filter_all; reflexivity.
  - rewrite filter_step_cond.
    destruct (item_cond f item) as [c|] eqn:Hc; simpl.
    + rewrite list_comp_total by (intros r Hr; eapply H; eauto).
      simpl. rewrite IH.
      * rewrite filter_filter. f_equal. apply filter_ext. intros r.
        unfold passes_items. simpl. rewrite Hc. reflexivity.
      * intros it c' r Hit Hc' Hr. apply filter_In in Hr.
        eapply H; [right; exact Hit | exact Hc' | tauto].
    + rewrite IH.
      * f_equal. apply filter_ext. intros r.
        unfold passes_items. simpl. rewrite Hc. reflexivity.
      * intros it c' r Hit Hc' Hr.
        eapply H; [right; exact Hit | exact Hc' | exact Hr].
Qed.

Lemma filter_income_ok (d d' : list record) (f : dict json) :
  filter_income d f = Ok d' -> d' = filter (passes f) d.
Proof. apply filter_loop_ok. Qed.

Lemma item_cond_restrict (f : dict json) (item : string * json) :
  item_cond (restrict_range_keys f) item = item_cond f item.
Proof.
  destruct item as [field value]. unfold item_cond, dict_get.
  rewrite dict_find_restrict by apply is_range_key_max. reflexivity.
Qed.

Lemma item_cond_not_range (f : dict json) (item : string * json) :
  is_range_key (fst item) = false -> item_cond f item = None.
Proof.
  destruct item as [field value]. unfold is_range_key, item_cond. simpl.
  intros H. apply orb_false_elim in H. destruct H as [-> _]. reflexivity.
Qed.

Lemma filter_loop_restrict (f items : dict json) (d : list record) :
  filter_loop (restrict_range_keys f) (restrict_range_keys items) d =
  filter_loop f items d.
Proof.
  revert d. induction items as [|item items IH]; simpl; intros d;
    [reflexivity|].
  destruct (is_range_key (fst item)) eqn:Hk; simpl.
  - rewrite !filter_step_cond, item_cond_restrict.
    destruct (item_cond f item) as [c|]; simpl.
    + destruct (list_comp c d); simpl; [apply IH | reflexivity].
    + apply IH.
  - rewrite filter_step_cond, (item_cond_not_range f item Hk). simpl.
    apply IH.
Qed.

Lemma filter_loop_app (f a b : dict json) (d : list record) :
  filter_loop f (a ++ b)%list d =
  (d1 <- filter_loop f a d ;; filter_loop f b d1).
Proof.
  revert d. induction a as [|item a IH]; simpl; intros d; [reflexivity|].
  destruct (filter_step f d item); simpl; [apply IH | reflexivity].
Qed.

Lemma passes_item (f : dict json) (item : string * json)
    (c : record -> result bool) (r : record) :
  In item f -> item_cond f item = Some c -> passes f r = true ->
  c r = Ok true.
Proof.
  intros Hin Hc Hp. unfold passes, passes_items in Hp.
  rewrite forallb_forall in Hp. specialize (Hp item Hin).
  rewrite Hc in Hp. apply ok_true_iff. exact Hp.
Qed.

(** A range filter of a mapping is the same range filter in a larger
    mapping that has one value per key. *)
Lemma item_cond_incl (f u : dict json) (item : string * json)
    (c : record -> result bool) :
  (forall it, In it f -> In it u) -> NoDup (dict_keys u) ->
  item_cond f item = Some c -> item_cond u item = Some c.
Proof.
  intros Hincl Hnd. destruct item as [field value]. unfold item_cond.
  destruct (str_endswith field "_min"); [|discriminate].
  unfold dict_get.
  destruct (dict_find f (str_drop_last 4 field ++ "_max")) as [hi|] eqn:Hf;
    [|simpl; discriminate].
  apply dict_find_In, Hincl, (In_dict_find u _ _ Hnd) in Hf.
  rewrite Hf. auto.
Qed.

(* ===================================================================== *)
(** ** Comparisons of numbers *)
(* ===================================================================== *)

Lemma Qcompare_inject_Z (x y : Z) :
  Qcompare (inject_Z x) (inject_Z y) = Z.compare x y.
Proof. unfold Qcompare. simpl. rewrite !Z.mul_1_r. reflexivity. Qed.

Lemma num_le_int (x y : Z) : num_le (of_int x) (of_int y) = (x <=? y).
Proof.
  unfold num_le, of_int, float_cmp. rewrite Qcompare_inject_Z.
  unfold Z.leb. destruct (x ?= y); reflexivity.
Qed.

Lemma py_le_num (u v : scalar) (x y : float) :
  to_num u = Some x -> to_num v = Some y -> py_le u v = Ok (num_le x y).
Proof.
  intros Hu Hv. unfold py_le, py_cmp. rewrite Hu, Hv. simpl.
  unfold num_le. destruct (float_cmp x y); reflexivity.
Qed.

Lemma py_between_num (lo v hi : scalar) (a x b : float) :
  to_num lo = Some a -> to_num v = Some x -> to_num hi = Some b ->
  py_between (JAtom lo) v (JAtom hi) = Ok (num_le a x && num_le x b).
Proof.
  intros Ha Hx Hb. unfold py_between. simpl.
  rewrite (py_le_num lo v a x Ha Hx). simpl.
  destruct (num_le a x); simpl; [apply py_le_num; assumption | reflexivity].
Qed.

(** A number is never ordered with a scalar that is not a number. *)
Lemma py_le_num_other (u v : scalar) (x : float) :
  to_num u = Some x -> to_num v = None -> py_le u v = Raise TypeError.
Proof.
  intros Hu Hv. unfold py_le, py_cmp. rewrite Hu, Hv.
  destruct u, v; simpl in *; try discriminate; reflexivity.
Qed.

(** The date condition on numeric bounds reads the year of the record. *)
Lemma date_cond_year (lo hi : scalar) (a b : float) (y : Z) (r : record) :
  to_num lo = Some a -> to_num hi = Some b -> year_of r = Some y ->
  date_cond "date" (JAtom lo) (JAtom hi) r
  = Ok (num_le a (of_int y) && num_le (of_int y) b).
Proof.
  unfold year_of, date_cond, dict_get. intros Ha Hb Hy.
  assert (Hbetween : forall z, py_between (JAtom lo) (SInt z) (JAtom hi)
                         = Ok (num_le a (of_int z) && num_le (of_int z) b)).
  { intros z. apply py_between_num; auto. }
  destruct (dict_find r "date") as [[| | | |s]|]; try discriminate.
  - cbn [py_slice4 bind]. unfold py_int. rewrite Hy. cbn [bind].
    apply Hbetween.
  - inversion Hy; subst. apply Hbetween.
Qed.

Lemma date_cond_no_year (lo hi : json) (r : record) :
  year_of r = None -> exists e, date_cond "date" lo hi r = Raise e.
Proof.
  unfold year_of, date_cond, dict_get. intros Hy.
  destruct (dict_find r "date") as [[| | | |s]|]; cbn [py_slice4 bind];
    try discriminate; eauto.
  unfold py_int. rewrite Hy. cbn [bind]. eauto.
Qed.

Lemma date_cond_ok_true (lo hi : scalar) (a b : float) (r : record) :
  to_num lo = Some a -> to_num hi = Some b ->
  ok_true (date_cond "date" (JAtom lo) (JAtom hi) r) = year_in a b r.
Proof.
  intros Ha Hb. unfold year_in. destruct (year_of r) as [y|] eqn:Hy.
  - rewrite (date_cond_year lo hi a b y r Ha Hb Hy). simpl.
    destruct (num_le a (of_int y) && num_le (of_int y) b); reflexivity.
  - destruct (date_cond_no_year (JAtom lo) (JAtom hi) r Hy) as [e ->].
    reflexivity.
Qed.

Lemma is_none_num (v : scalar) (x : float) :
  to_num v = Some x -> is_none (JAtom v) = false.
Proof. destruct v; simpl; congruence. Qed.

Lemma bad_date_no_year (r : record) : bad_date r -> year_of r = None.
Proof.
  unfold bad_date, year_of.
  destruct (dict_find r "date") as [[| | | |s]|]; simpl; tauto.
Qed.

(** The numeric condition on numeric bounds reads the number of the field. *)
Lemma num_cond_field (base : string) (lo hi : scalar) (a b x : float)
    (r : record) :
  to_num lo = Some a -> to_num hi = Some b -> field_num base r = Some x ->
  num_cond base (JAtom lo) (JAtom hi) r = Ok (num_le a x && num_le x b).
Proof.
  unfold field_num, num_cond, dict_get. intros Ha Hb Hx.
  destruct (dict_find r base) as [v|].
  - apply py_between_num; assumption.
  - inversion Hx; subst. apply py_between_num; auto.
Qed.

Lemma num_cond_ok_true (base : string) (lo hi : scalar) (a b : float)
    (r : record) :
  to_num lo = Some a -> to_num hi = Some b ->
  ok_true (num_cond base (JAtom lo) (JAtom hi) r) = num_in base a b r.
Proof.
  intros Ha Hb. unfold num_in.
  destruct (field_num base r) as [x|] eqn:Hx.
  - rewrite (num_cond_field base lo hi a b x r Ha Hb Hx). simpl.
    destruct (num_le a x && num_le x b); reflexivity.
  - unfold field_num in Hx. unfold num_cond, dict_get, py_between.
    destruct (dict_find r base) as [v|]; [|discriminate]. simpl.
    rewrite (py_le_num_other lo v a Ha Hx). reflexivity.
Qed.

(** The item [base_min] of a mapping whose [base_max] is a number. *)
Lemma item_cond_num (f : dict json) (base : string) (lo : json) (hi : scalar)
    (b : float) :
  base <> "date" -> to_num hi = Some b ->
  dict_find f (base ++ "_max") = Some (JAtom hi) ->
  item_cond f (base ++ "_min", lo) = Some (num_cond base lo (JAtom hi)).
Proof.
  intros Hbase Hb Hf. unfold item_cond.
  rewrite (str_endswith_app base "_min" "_min") by reflexivity. simpl.
  change 4%nat with (String.length "_min"). rewrite str_drop_last_app.
  unfold dict_get. rewrite Hf.
  replace (is_none (JAtom hi)) with false
    by (destruct hi; simpl in *; congruence).
  destruct (String.eqb_spec base "date"); [contradiction | reflexivity].
Qed.

Lemma item_cond_max (f : dict json) (base : string) (v : json) :
  item_cond f (base ++ "_max", v) = None.
Proof.
  unfold item_cond.
  rewrite (str_endswith_app base "_max" "_min") by reflexivity.
  reflexivity.
Qed.

Lemma app_min_neq_max (base : string) : base ++ "_min" <> base ++ "_max".
Proof. induction base as [|c base IH]; simpl; congruence. Qed.

Lemma item_cond_date (f : dict json) (lo hi : json) :
  dict_find f "date_max" = Some hi -> is_none hi = false ->
  item_cond f ("date_min", lo) = Some (date_cond "date" lo hi).
Proof.
  intros Hf Hhi. unfold item_cond.
  change (str_endswith "date_min" "_min") with true.
  change (str_drop_last 4 "date_min") with "date".
  change ("date" ++ "_max") with "date_max".
  unfold dict_get. rewrite Hf, Hhi. reflexivity.
Qed.

(** A mapping that holds one pair [k_min], [k_max] runs one comprehension. *)
Lemma filter_income_lone (d : list record) (f : dict json)
    (imin imax : string * json) (c : record -> result bool) :
  f = [imin; imax] \/ f = [imax; imin] ->
  item_cond f imin = Some c -> item_cond f imax = None ->
  filter_income d f = list_comp c d.
Proof.
  intros Hf Hmin Hmax. unfold filter_income.
  destruct Hf as [Hf|Hf]; rewrite Hf at 2; cbn [filter_loop].
  - rewrite filter_step_cond, Hmin.
    destruct (list_comp c d) as [d1|e]; cbn [bind]; [|reflexivity].
    rewrite filter_step_cond, Hmax. reflexivity.
  - rewrite filter_step_cond, Hmax. cbn [bind].
    rewrite filter_step_cond, Hmin.
    destruct (list_comp c d) as [d1|e]; reflexivity.
Qed.

Lemma lone_find_max (f : dict json) (base : string) (lo hi : json) :
  f = [(base ++ "_min", lo); (base ++ "_max", hi)] \/
  f = [(base ++ "_max", hi); (base ++ "_min", lo)] ->
  dict_find f (base ++ "_max") = Some hi.
Proof.
  intros [->| ->]; simpl.
  - destruct (String.eqb_spec (base ++ "_min") (base ++ "_max")) as [E|_].
    + exfalso. exact (app_min_neq_max base E).
    + rewrite String.eqb_refl. reflexivity.
  - rewrite String.eqb_refl. reflexivity.
Qed.

(* ===================================================================== *)
(** ** The filter engine *)
(* ===================================================================== *)

(** C3: with an active date filter whose bounds are the numbers [lo], [hi],
    a record is kept iff [lo <= year <= hi], where the year is the integer
    written by the first four characters of its [date], and 0 for a record
    without [date]: (1) the filter alone returns exactly the records whose
    year is in range, whenever every record has a year; (2) among other
    filters, every record that is kept has its year in range; (3) a record
    without [date] is dropped when [lo] is above 0. *)
Theorem date_filter_keeps_years_in_range (lo hi : scalar) (a b : float) :
  to_num lo = Some a -> to_num hi = Some b ->
  let imin := ("date_min", JAtom lo) in
  let imax := ("date_max", JAtom hi) in
  (forall (d : list record) (f : dict json),
      f = [imin; imax] \/ f = [imax; imin] ->
      (forall r, In r d -> year_of r <> None) ->
      filter_income d f = Ok (filter (year_in a b) d)) /\
  (forall (d d' : list record) (f : dict json) (r : record),
      In imin f -> dict_find f "date_max" = Some (JAtom hi) ->
      filter_income d f = Ok d' -> In r d' ->
      In r d /\
      exists y, year_of r = Some y /\
                num_le a (of_int y) = true /\ num_le (of_int y) b = true) /\
  (forall (d d' : list record) (f : dict json) (r : record),
      In imin f -> dict_find f "date_max" = Some (JAtom hi) ->
      filter_income d f = Ok d' ->
      dict_find r "date" = None -> num_le a (of_int 0) = false ->
      ~ In r d').
Proof.
  intros Ha Hb imin imax.
  assert (Hgen : forall (d d' : list record) (f : dict json) (r : record),
             In imin f -> dict_find f "date_max" = Some (JAtom hi) ->
             filter_income d f = Ok d' -> In r d' ->
             In r d /\ year_in a b r = true).
  { intros d d' f r Hin Hmax Hok Hr.
    apply filter_income_ok in Hok. subst d'.
    apply filter_In in Hr. destruct Hr as [Hr Hp]. split; [exact Hr|].
    rewrite <- (date_cond_ok_true lo hi a b r Ha Hb). apply ok_true_iff.
    apply (passes_item f imin _ r Hin); [|exact Hp].
    apply item_cond_date; [exact Hmax | exact (is_none_num hi b Hb)]. }
  split; [|split].
  - intros d f Hf Hyear.
    rewrite (filter_income_lone d f imin imax
               (date_cond "date" (JAtom lo) (JAtom hi)) Hf).
    + rewrite list_comp_total.
      * f_equal. apply filter_ext. intros r.
        apply date_cond_ok_true; assumption.
      * intros r Hr. destruct (year_of r) as [y|] eqn:Hy.
        -- rewrite (date_cond_year lo hi a b y r Ha Hb Hy). eauto.
        -- exfalso. exact (Hyear r Hr Hy).
    + apply item_cond_date; [|exact (is_none_num hi b Hb)].
      exact (lone_find_max f "date" _ _ Hf).
    + exact (item_cond_max f "date" _).
  - intros d d' f r Hin Hmax Hok Hr.
    destruct (Hgen d d' f r Hin Hmax Hok Hr) as [Hd Hy].
    split; [exact Hd|]. unfold year_in in Hy.
    destruct (year_of r) as [y|]; [|discriminate].
    exists y. split; [reflexivity|].
    apply andb_prop in Hy. exact Hy.
  - intros d d' f r Hin Hmax Hok Hnone Hlo Hr.
    destruct (Hgen d d' f r Hin Hmax Hok Hr) as [_ Hy].
    unfold year_in, year_of in Hy. rewrite Hnone in Hy.
    apply andb_prop in Hy. destruct Hy as [H1 _]. congruence.
Qed.

Lemma date_filter_keeps_years_in_range_witness :
  filter_income
    [[("revenue", SInt 100); ("date", SStr "2020-01-01")];
     [("revenue", SInt 200); ("date", SStr "2021-01-01")]]
    [("date_min", JAtom (SInt 2020)); ("date_max", JAtom (SInt 2020))]
  = Ok [[("revenue", SInt 100); ("date", SStr "2020-01-01")]]
  /\ (exists y, year_of [("revenue", SInt 100); ("date", SStr "2020-01-01")]
                = Some y /\
                num_le (of_int 2020) (of_int y) = true /\
                num_le (of_int y) (of_int 2020) = true)
  /\ ~ In [("revenue", SInt 5)]
          [[("revenue", SInt 100); ("date", SStr "2020-01-01")]].
Proof.
  destruct (date_filter_keeps_years_in_range (SInt 2020) (SInt 2020)
              (of_int 2020) (of_int 2020) eq_refl eq_refl) as [A [B C]].
  split; [|split].
  - apply (A [[("revenue", SInt 100); ("date", SStr "2020-01-01")];
              [("revenue", SInt 200); ("date", SStr "2021-01-01")]]).
    + left. reflexivity.
    + intros r [<-|[<-|[]]]; vm_compute; discriminate.
  - apply (B [[("revenue", SInt 5)];
              [("revenue", SInt 100); ("date", SStr "2020-01-01")]]
             [[("revenue", SInt 100); ("date", SStr "2020-01-01")]]
             [("date_min", JAtom (SInt 2020)); ("date_max", JAtom (SInt 2020))]
             [("revenue", SInt 100); ("date", SStr "2020-01-01")]).
    + left. reflexivity.
    + reflexivity.
    + reflexivity.
    + left. reflexivity.
  - apply (C [[("revenue", SInt 5)];
              [("revenue", SInt 100); ("date", SStr "2020-01-01")]]
             _ [("date_min", JAtom (SInt 2020)); ("date_max", JAtom (SInt 2020))]).
    + left. reflexivity.
    + reflexivity.
    + reflexivity.
    + reflexivity.
    + reflexivity.
Defined.

(** C4: with an active numeric filter [base_min = lo], [base_max = hi] on a
    field other than [date], a record is kept iff [lo <= record[base] <= hi],
    a record without the field being compared as plus infinity:
    (1) the filter alone returns exactly the records whose number is in
    range, whenever the field of every record is a number or missing;
    (2) among other filters, every record that is kept is in range;
    (3) a record without the field is dropped whenever [hi] is not plus
    infinity, and so by the bounds 0 and 100. *)
Theorem numeric_filter_keeps_values_in_range (base : string)
    (lo hi : scalar) (a b : float) :
  base <> "date" -> to_num lo = Some a -> to_num hi = Some b ->
  let imin := (base ++ "_min", JAtom lo) in
  let imax := (base ++ "_max", JAtom hi) in
  (forall (d : list record) (f : dict json),
      f = [imin; imax] \/ f = [imax; imin] ->
      (forall r, In r d -> field_num base r <> None) ->
      filter_income d f = Ok (filter (num_in base a b) d)) /\
  (forall (d d' : list record) (f : dict json) (r : record),
      In imin f -> dict_find f (base ++ "_max") = Some (JAtom hi) ->
      filter_income d f = Ok d' -> In r d' ->
      In r d /\ num_in base a b r = true) /\
  (forall (d d' : list record) (f : dict json) (r : record),
      In imin f -> dict_find f (base ++ "_max") = Some (JAtom hi) ->
      filter_income d f = Ok d' ->
      dict_find r base = None -> b <> FPosInf -> ~ In r d') /\
  (forall (r : record),
      dict_find r base = None -> lo = SInt 0 -> hi = SInt 100 ->
      filter_income [r] [imin; imax] = Ok []).
Proof.
  intros Hbase Ha Hb imin imax.
  assert (Hcond : forall f, dict_find f (base ++ "_max") = Some (JAtom hi) ->
             item_cond f imin = Some (num_cond base (JAtom lo) (JAtom hi))).
  { intros f Hf. exact (item_cond_num f base (JAtom lo) hi b Hbase Hb Hf). }
  assert (Hlone : forall (d : list record) (f : dict json),
             f = [imin; imax] \/ f = [imax; imin] ->
             (forall r, In r d -> field_num base r <> None) ->
             filter_income d f = Ok (filter (num_in base a b) d)).
  { intros d f Hf Hnum.
    rewrite (filter_income_lone d f imin imax
               (num_cond base (JAtom lo) (JAtom hi)) Hf).
    - rewrite list_comp_total.
      + f_equal. apply filter_ext. intros r.
        apply num_cond_ok_true; assumption.
      + intros r Hr. destruct (field_num base r) as [x|] eqn:Hx.
        * rewrite (num_cond_field base lo hi a b x r Ha Hb Hx). eauto.
        * exfalso. exact (Hnum r Hr Hx).
    - apply Hcond. exact (lone_find_max f base _ _ Hf).
    - exact (item_cond_max f base _). }
  assert (Hgen : forall (d d' : list record) (f : dict json) (r : record),
             In imin f -> dict_find f (base ++ "_max") = Some (JAtom hi) ->
             filter_income d f = Ok d' -> In r d' ->
             In r d /\ num_cond base (JAtom lo) (JAtom hi) r = Ok true).
  { intros d d' f r Hin Hmax Hok Hr.
    apply filter_income_ok in Hok. subst d'.
    apply filter_In in Hr. destruct Hr as [Hr Hp]. split; [exact Hr|].
    exact (passes_item f imin _ r Hin (Hcond f Hmax) Hp). }
  split; [exact Hlone | split; [|split]].
  - intros d d' f r Hin Hmax Hok Hr.
    destruct (Hgen d d' f r Hin Hmax Hok Hr) as [Hd Hc].
    split; [exact Hd|].
    rewrite <- (num_cond_ok_true base lo hi a b r Ha Hb), Hc. reflexivity.
  - intros d d' f r Hin Hmax Hok Hnone Hfin Hr.
    destruct (Hgen d d' f r Hin Hmax Hok Hr) as [_ Hc].
    assert (Hx : field_num base r = Some FPosInf)
      by (unfold field_num; rewrite Hnone; reflexivity).
    rewrite (num_cond_field base lo hi a b FPosInf r Ha Hb Hx) in Hc.
    inversion Hc as [Hc']. apply andb_prop in Hc'. destruct Hc' as [_ Hle].
    unfold num_le, float_cmp in Hle. destruct b; congruence.
  - intros r Hnone Hlo Hhi.
    rewrite (Hlone [r] [imin; imax]).
    + simpl. unfold num_in, field_num. rewrite Hnone.
      subst hi. simpl in Hb. inversion Hb; subst b.
      rewrite andb_comm. reflexivity.
    + left. reflexivity.
    + intros r' [<-|[]]. unfold field_num. rewrite Hnone. discriminate.
Qed.

Lemma numeric_filter_keeps_values_in_range_witness :
  filter_income
    [[("revenue", SInt 100); ("date", SStr "2020-01-01")];
     [("revenue", SInt 200); ("date", SStr "2021-01-01")];
     [("date", SStr "2022-01-01")]]
    [("revenue_min", JAtom (SInt 150)); ("revenue_max", JAtom (SInt 300))]
  = Ok [[("revenue", SInt 200); ("date", SStr "2021-01-01")]]
  /\ filter_income [[("date", SStr "2022-01-01")]]
       [("revenue_min", JAtom (SInt 0)); ("revenue_max", JAtom (SInt 100))]
     = Ok [].
Proof.
  split.
  - destruct (numeric_filter_keeps_values_in_range "revenue"
                (SInt 150) (SInt 300) _ _
                ltac:(discriminate) eq_refl eq_refl) as [A _].
    apply (A [[("revenue", SInt 100); ("date", SStr "2020-01-01")];
              [("revenue", SInt 200); ("date", SStr "2021-01-01")];
              [("date", SStr "2022-01-01")]]).
    + left. reflexivity.
    + intros r [<-|[<-|[<-|[]]]]; vm_compute; discriminate.
  - destruct (numeric_filter_keeps_values_in_range "revenue"
                (SInt 0) (SInt 100) _ _
                ltac:(discriminate) eq_refl eq_refl) as [_ [_ [_ D]]].
    apply (D [("date", SStr "2022-01-01")]); reflexivity.
Defined.

(** C7: filtering is idempotent: when [filter_income d f] returns [d'],
    filtering [d'] by [f] again returns [d']. *)
Theorem filter_income_idempotent (d d' : list record) (f : dict json) :
  filter_income d f = Ok d' -> filter_income d' f = Ok d'.
Proof.
  intros H. apply filter_income_ok in H. subst d'.
  apply filter_loop_fixed. intros r Hr.
  apply filter_In in Hr. tauto.
Qed.

Lemma filter_income_idempotent_witness :
  filter_income
    [[("revenue", SInt 200); ("date", SStr "2021-01-01")]]
    [("revenue_min", JAtom (SInt 150)); ("revenue_max", JAtom (SInt 300));
     ("date_max", JAtom (SInt 2021)); ("date_min", JAtom (SInt 2020))]
  = Ok [[("revenue", SInt 200); ("date", SStr "2021-01-01")]].
Proof.
  apply (filter_income_idempotent
           [[("revenue", SInt 100); ("date", SStr "2020-01-01")];
            [("revenue", SInt 200); ("date", SStr "2021-01-01")]]).
  reflexivity.
Defined.

(** C8: filtering is monotonic under adding filters and never reorders:
    when [u] is the union of [f1] and [f2] and gives each key one value,
    and both calls return, [filter_income d u] is a subsequence of
    [filter_income d f1]; and every result of [filter_income] is a
    subsequence of its input. *)
Theorem filter_income_monotone (d d1 du : list record) (f1 f2 u : dict json) :
  is_union u f1 f2 ->
  filter_income d f1 = Ok d1 -> filter_income d u = Ok du ->
  subseq du d1 /\ subseq d1 d /\ subseq du d.
Proof.
  intros [Hnd Hu] H1 H2.
  apply filter_income_ok in H1, H2. subst d1 du.
  split; [|split; apply subseq_filter].
  apply subseq_filter_imp. intros r _ Hp.
  unfold passes, passes_items. apply forallb_forall. intros item Hin.
  destruct (item_cond f1 item) as [c|] eqn:Hc; [|reflexivity].
  assert (Hincl : forall it, In it f1 -> In it u)
    by (intros it Hit; apply Hu; left; exact Hit).
  apply ok_true_iff.
  apply (passes_item u item c r (Hincl item Hin)); [|exact Hp].
  exact (item_cond_incl f1 u item c Hincl Hnd Hc).
Qed.

Lemma filter_income_monotone_witness :
  subseq [[("revenue", SInt 200); ("date", SStr "2020-06-30")]]
         [[("revenue", SInt 100); ("date", SStr "2020-01-01")];
          [("revenue", SInt 200); ("date", SStr "2020-06-30")]].
Proof.
  refine (proj1 (filter_income_monotone
           [[("revenue", SInt 100); ("date", SStr "2020-01-01")];
            [("revenue", SInt 200); ("date", SStr "2020-06-30")];
            [("revenue", SInt 250); ("date", SStr "2021-01-01")]]
           _ _
           [("date_min", JAtom (SInt 2020)); ("date_max", JAtom (SInt 2020))]
           [("revenue_max", JAtom (SInt 300)); ("revenue_min", JAtom (SInt 150))]
           [("revenue_max", JAtom (SInt 300)); ("date_min", JAtom (SInt 2020));
            ("revenue_min", JAtom (SInt 150)); ("date_max", JAtom (SInt 2020))]
           _ eq_refl eq_refl)).
  split.
  - unfold dict_keys. simpl.
    repeat constructor; simpl; intuition discriminate.
  - intros item. simpl. tauto.
Defined.

(** C9: the filter is not total on date filters.  When the loop reaches the
    item [date_min] of a mapping whose [date_max] is not [None], and the
    list it has filtered so far holds a record whose [date] is not a string,
    or is a string whose first four characters are not an integer literal
    (the empty string included), [filter_income] raises an exception. *)
Theorem date_filter_raises_on_bad_date (d d1 : list record)
    (f before after : dict json) (lo hi : json) (r : record) :
  f = (before ++ ("date_min", lo) :: after)%list ->
  dict_find f "date_max" = Some hi -> is_none hi = false ->
  filter_loop f before d = Ok d1 -> In r d1 -> bad_date r ->
  exists e, filter_income d f = Raise e.
Proof.
  intros Hf Hmax Hhi Hbefore Hr Hbad.
  unfold filter_income.
  replace (filter_loop f f d)
    with (filter_loop f (before ++ ("date_min", lo) :: after)%list d)
    by (rewrite <- Hf; reflexivity).
  rewrite filter_loop_app, Hbefore. cbn [bind filter_loop].
  rewrite filter_step_cond, (item_cond_date f lo hi Hmax Hhi).
  destruct (list_comp_raises (date_cond "date" lo hi) d1 r Hr) as [e He].
  - apply date_cond_no_year, bad_date_no_year, Hbad.
  - exists e. rewrite He. reflexivity.
Qed.

Lemma date_filter_raises_on_bad_date_witness :
  (exists e,
      filter_income
        [[("revenue", SInt 100); ("date", SStr "2020-01-01")];
         [("revenue", SInt 200); ("date", SStr "n/a")]]
        [("date_min", JAtom (SInt 2020)); ("date_max", JAtom (SInt 2021))]
      = Raise e)
  /\ (exists e,
      filter_income
        [[("revenue", SInt 200); ("date", SInt 2020)]]
        [("revenue_min", JAtom (SInt 0)); ("revenue_max", JAtom (SInt 300));
         ("date_min", JAtom (SInt 2020)); ("date_max", JAtom (SInt 2021))]
      = Raise e).
Proof.
  split.
  - apply (date_filter_raises_on_bad_date
             [[("revenue", SInt 100); ("date", SStr "2020-01-01")];
              [("revenue", SInt 200); ("date", SStr "n/a")]]
             [[("revenue", SInt 100); ("date", SStr "2020-01-01")];
              [("revenue", SInt 200); ("date", SStr "n/a")]]
             [("date_min", JAtom (SInt 2020)); ("date_max", JAtom (SInt 2021))]
             [] [("date_max", JAtom (SInt 2021))]
             (JAtom (SInt 2020)) (JAtom (SInt 2021))
             [("revenue", SInt 200); ("date", SStr "n/a")]
             eq_refl eq_refl eq_refl eq_refl).
    + right. left. reflexivity.
    + reflexivity.
  - apply (date_filter_raises_on_bad_date
             [[("revenue", SInt 200); ("date", SInt 2020)]]
             [[("revenue", SInt 200); ("date", SInt 2020)]]
             [("revenue_min", JAtom (SInt 0)); ("revenue_max", JAtom (SInt 300));
              ("date_min", JAtom (SInt 2020)); ("date_max", JAtom (SInt 2021))]
             [("revenue_min", JAtom (SInt 0)); ("revenue_max", JAtom (SInt 300))]
             [("date_max", JAtom (SInt 2021))]
             (JAtom (SInt 2020)) (JAtom (SInt 2021))
             [("revenue", SInt 200); ("date", SInt 2020)]
             eq_refl eq_refl eq_refl eq_refl).
    + left. reflexivity.
    + exact I.
Defined.

(** C10: an item of the mapping whose key ends in neither [_min] nor [_max]
    has no effect: [filter_income] gives the same result (or raises the same
    exception) on the mapping restricted to the keys that end in [_min] or
    [_max]; in particular a mapping made of one raw entry
    [{"revenue": [lo, hi]}] returns the data unchanged. *)
Theorem filter_income_ignores_other_keys (d : list record) (f : dict json)
    (lo hi : json) :
  filter_income d f = filter_income d (restrict_range_keys f) /\
  filter_income d [("revenue", JList [lo; hi])] = Ok d.
Proof.
  split.
  - unfold filter_income. symmetry. apply filter_loop_restrict.
  - reflexivity.
Qed.

(* ===================================================================== *)
(** ** The route *)
(* ===================================================================== *)

(** C2: the route hands the [fields] mapping to [filter_income] as it is.
    An entry [{"revenue": [1000, 5000]}] is not expanded to [revenue_min],
    [revenue_max]: the record with revenue 100 is returned, while the
    expanded mapping drops it. *)
Theorem fields_entry_is_not_expanded :
  filter_sort_income
    [[("revenue", SInt 100); ("date", SStr "2020-01-01")]]
    {| sort_field := None; ascending := None;
       fields := Some [("revenue", JList [JAtom (SInt 1000); JAtom (SInt 5000)])] |}
  = Data [[("revenue", SInt 100); ("date", SStr "2020-01-01")]] 200
  /\
  filter_sort_income
    [[("revenue", SInt 100); ("date", SStr "2020-01-01")]]
    {| sort_field := None; ascending := None;
       fields := Some [("revenue_min", JAtom (SInt 1000));
                       ("revenue_max", JAtom (SInt 5000))] |}
  = Data [] 200.
Proof. split; reflexivity. Qed.

(* ===================================================================== *)
(** ** The order of the sort keys *)
(* ===================================================================== *)

Lemma float_cmp_antisym (a b : float) :
  float_cmp b a = option_map CompOpp (float_cmp a b).
Proof.
  destruct a, b; simpl; try reflexivity.
  f_equal. symmetry. apply Qcompare_antisym.
Qed.

Lemma float_cmp_lt_trans (a b c : float) :
  float_cmp a b = Some Lt -> float_cmp b c = Some Lt ->
  float_cmp a c = Some Lt.
Proof.
  destruct a as [p| | |], b as [q| | |], c as [r| | |]; simpl;
    try congruence.
  intros H1 H2.
  assert (H1' : (p ?= q)%Q = Lt) by congruence.
  assert (H2' : (q ?= r)%Q = Lt) by congruence.
  f_equal. apply Qlt_alt. apply Qlt_alt in H1', H2'.
  exact (Qlt_trans _ _ _ H1' H2').
Qed.

Lemma float_cmp_eq_eq (k x y : float) :
  float_cmp k x = Some Eq -> float_cmp k y = Some Eq ->
  float_cmp y x = Some Eq.
Proof.
  destruct k as [p| | |], x as [q| | |], y as [r| | |]; simpl;
    try congruence.
  intros H1 H2.
  assert (H1' : (p ?= q)%Q = Eq) by congruence.
  assert (H2' : (p ?= r)%Q = Eq) by congruence.
  f_equal. apply Qeq_alt. apply Qeq_alt in H1', H2'. rewrite <- H1', <- H2'.
  reflexivity.
Qed.

(** Two numbers that are not NaN are ordered. *)
Lemma float_cmp_some (x y : float) :
  x <> FNaN -> y <> FNaN -> exists c, float_cmp x y = Some c.
Proof. destruct x, y; simpl; intros Hx Hy; try congruence; eauto. Qed.

Lemma to_num_not_nan (a : scalar) (x : float) :
  to_num a = Some x -> is_nan a = false -> x <> FNaN.
Proof.
  destruct a as [|b|z|f|s]; simpl; intros H Hn; inversion H; subst;
    try discriminate.
  destruct x; congruence.
Qed.

Lemma string_compare_lt_trans (s t u : string) :
  String.compare s t = Lt -> String.compare t u = Lt ->
  String.compare s u = Lt.
Proof.
  intros H1 H2.
  apply String_as_OT.cmp_lt in H1. apply String_as_OT.cmp_lt in H2.
  apply String_as_OT.cmp_lt. exact (String_as_OT.lt_trans _ _ _ H1 H2).
Qed.

Lemma string_compare_refl (s : string) : String.compare s s = Eq.
Proof. apply String_as_OT.cmp_eq. reflexivity. Qed.

(** Two keys are ordered when both are numbers or both are strings. *)
Lemma py_cmp_ok (a b : scalar) (c : option comparison) :
  py_cmp a b = Ok c ->
  (exists x y, to_num a = Some x /\ to_num b = Some y /\ c = float_cmp x y) \/
  (exists s t, a = SStr s /\ b = SStr t /\ c = Some (String.compare s t)).
Proof.
  unfold py_cmp. intros H.
  destruct (to_num a) as [x|] eqn:Ha, (to_num b) as [y|] eqn:Hb.
  - left. exists x, y. inversion H. auto.
  - destruct a, b; simpl in *; discriminate.
  - destruct a, b; simpl in *; discriminate.
  - right. destruct a, b; simpl in *; try discriminate.
    inversion H. eauto.
Qed.

Lemma py_cmp_num (a b : scalar) (x y : float) :
  to_num a = Some x -> to_num b = Some y -> py_cmp a b = Ok (float_cmp x y).
Proof. intros Ha Hb. unfold py_cmp. rewrite Ha, Hb. reflexivity. Qed.

Lemma lt_key_iff (a b : scalar) :
  lt_key a b = true <-> py_cmp a b = Ok (Some Lt).
Proof.
  unfold lt_key, py_lt. destruct (py_cmp a b) as [[[| |]|]|e]; simpl;
    split; congruence.
Qed.

Lemma lt_key_trans (a b c : scalar) :
  lt_key a b = true -> lt_key b c = true -> lt_key a c = true.
Proof.
  rewrite !lt_key_iff. intros H1 H2.
  destruct (py_cmp_ok _ _ _ H1) as [(x & y & Ha & Hb & E1)|(s & t & -> & -> & E1)];
    destruct (py_cmp_ok _ _ _ H2) as [(y' & z & Hb' & Hc & E2)|(t' & u & Eb & -> & E2)].
  - rewrite Hb in Hb'. inversion Hb'; subst y'.
    rewrite (py_cmp_num a c x z Ha Hc). f_equal.
    apply (float_cmp_lt_trans x y z); congruence.
  - subst b. discriminate.
  - discriminate.
  - inversion Eb; subst t'. cbv [py_cmp to_num]. do 2 f_equal.
    apply (string_compare_lt_trans s t u); congruence.
Qed.

Lemma lt_key_asym (a b : scalar) : lt_key a b = true -> lt_key b a = false.
Proof.
  intros H. destruct (lt_key b a) eqn:H'; [|reflexivity].
  rewrite lt_key_iff in H, H'.
  destruct (py_cmp_ok _ _ _ H) as [(x & y & Ha & Hb & E)|(s & t & -> & -> & E)].
  - rewrite (py_cmp_num b a y x Hb Ha) in H'. inversion H' as [E'].
    rewrite float_cmp_antisym, <- E in E'. discriminate.
  - cbv [py_cmp to_num] in H'. inversion H' as [E'].
    inversion E as [E'']. rewrite String.compare_antisym, <- E'' in E'.
    discriminate.
Qed.

(** Two ordered keys that are neither equal nor NaN are strictly ordered. *)
Lemma lt_key_total (a b : scalar) :
  comparable a b = true -> py_eq a b = false ->
  is_nan a = false -> is_nan b = false ->
  lt_key a b = true \/ lt_key b a = true.
Proof.
  unfold comparable, py_lt. intros Hc Hne Hna Hnb.
  destruct (py_cmp a b) as [c|e] eqn:Hcmp; [|discriminate].
  rewrite !lt_key_iff, Hcmp.
  destruct (py_cmp_ok _ _ _ Hcmp) as [(x & y & Ha & Hb & E)|(s & t & -> & -> & E)].
  - rewrite (py_cmp_num b a y x Hb Ha), float_cmp_antisym, <- E.
    unfold py_eq in Hne. rewrite Ha, Hb, <- E in Hne.
    destruct (float_cmp_some x y (to_num_not_nan a x Ha Hna)
                (to_num_not_nan b y Hb Hnb)) as [c' Hc'].
    rewrite Hc' in E. subst c.
    destruct c'; simpl; auto. discriminate Hne.
  - cbv [py_cmp to_num]. rewrite (String.compare_antisym t s).
    cbv [py_eq to_num] in Hne. subst c.
    destruct (String.compare s t) eqn:E; simpl; auto.
    apply String.compare_eq_iff in E. subst t.
    rewrite String.eqb_refl in Hne. discriminate Hne.
Qed.

(** Keys equal to the same key are not strictly ordered. *)
Lemma py_eq_not_lt (k x y : scalar) :
  py_eq k x = true -> py_eq k y = true -> lt_key y x = false.
Proof.
  intros Hx Hy. destruct (lt_key y x) eqn:Hlt; [exfalso|reflexivity].
  rewrite lt_key_iff in Hlt. unfold py_eq in Hx, Hy.
  destruct (py_cmp_ok _ _ _ Hlt) as [(b & a & Hb & Ha & E)|(s & t & -> & -> & E)].
  - rewrite Ha in Hx. rewrite Hb in Hy.
    destruct (to_num k) as [c|] eqn:Hk.
    + destruct (float_cmp c a) as [[| |]|] eqn:E1; try discriminate Hx.
      destruct (float_cmp c b) as [[| |]|] eqn:E2; try discriminate Hy.
      rewrite (float_cmp_eq_eq c a b E1 E2) in E. discriminate E.
    + destruct k, x; simpl in *; discriminate.
  - destruct k; simpl in *; try discriminate.
    apply String.eqb_eq in Hx, Hy. subst.
    rewrite string_compare_refl in E. discriminate E.
Qed.

(* ===================================================================== *)
(** ** The stable sort *)
(* ===================================================================== *)

Section StableSort.
Context {A : Type}.
Implicit Types (x : scalar * A) (l : list (scalar * A)).

Lemma insert_key_perm x l : Permutation (insert_key x l) (x :: l).
Proof.
  induction l as [|y l IH]; simpl; [reflexivity|].
  destruct (lt_key (fst y) (fst x)); [|reflexivity].
  rewrite IH. apply perm_swap.
Qed.

Lemma stable_sort_perm l : Permutation (stable_sort l) l.
Proof.
  induction l as [|x l IH]; simpl; [reflexivity|].
  rewrite insert_key_perm, IH. reflexivity.
Qed.

(** Stability: a class of keys, no two of which are strictly ordered,
    keeps its order. *)
Section Class.
Variable P : scalar -> bool.
Hypothesis P_ties :
  forall a b, P a = true -> P b = true -> lt_key b a = false.

Lemma insert_key_class x l :
  filter (fun p => P (fst p)) (insert_key x l)
  = filter (fun p => P (fst p)) (x :: l).
Proof.
  induction l as [|y l IH]; [reflexivity|].
  cbn [insert_key].
  destruct (lt_key (fst y) (fst x)) eqn:Hlt; [|reflexivity].
  cbn [filter] in *. rewrite IH.
  destruct (P (fst x)) eqn:Hx, (P (fst y)) eqn:Hy; try reflexivity.
  rewrite (P_ties _ _ Hx Hy) in Hlt. discriminate.
Qed.

Lemma stable_sort_class l :
  filter (fun p => P (fst p)) (stable_sort l)
  = filter (fun p => P (fst p)) l.
Proof.
  induction l as [|x l IH]; [reflexivity|].
  cbn [stable_sort]. rewrite insert_key_class.
  cbn [filter]. rewrite IH. reflexivity.
Qed.
End Class.

(** Sortedness, when the keys are pairwise strictly ordered. *)
Lemma insert_key_sorted x l :
  StronglySorted key_lt l -> Forall (key_apart x) l ->
  StronglySorted key_lt (insert_key x l).
Proof.
  induction l as [|y l IH]; intros Hs Ha; cbn [insert_key].
  - constructor; constructor.
  - apply StronglySorted_inv in Hs. destruct Hs as [Hs Hy].
    inversion Ha as [|? ? Hxy Ha']; subst.
    destruct (lt_key (fst y) (fst x)) eqn:Hlt.
    + constructor; [apply IH; assumption|].
      apply (Permutation_Forall (Permutation_sym (insert_key_perm x l))).
      constructor; assumption.
    + assert (Hx : key_lt x y).
      { destruct Hxy as [H|H]; [exact H|].
        unfold key_lt in H. congruence. }
      constructor; [constructor; assumption|].
      constructor; [exact Hx|].
      rewrite Forall_forall in Hy |- *. intros z Hz.
      exact (lt_key_trans _ _ _ Hx (Hy z Hz)).
Qed.

Lemma stable_sort_sorted l :
  ForallOrdPairs key_apart l -> StronglySorted key_lt (stable_sort l).
Proof.
  induction 1 as [|x l Hx Hl IH]; cbn [stable_sort]; [constructor|].
  apply insert_key_sorted; [exact IH|].
  exact (Permutation_Forall (Permutation_sym (stable_sort_perm l)) Hx).
Qed.

(** A list has one strictly sorted arrangement. *)
Lemma sorted_perm_unique l1 l2 :
  StronglySorted key_lt l1 -> StronglySorted key_lt l2 ->
  Permutation l1 l2 -> l1 = l2.
Proof.
  revert l2. induction l1 as [|x l1 IH]; intros l2 H1 H2 Hp.
  - apply Permutation_nil in Hp. congruence.
  - destruct l2 as [|y l2];
      [apply Permutation_sym, Permutation_nil in Hp; discriminate|].
    apply StronglySorted_inv in H1. destruct H1 as [H1 Hx].
    apply StronglySorted_inv in H2. destruct H2 as [H2 Hy].
    rewrite Forall_forall in Hx, Hy.
    assert (Hxy : x = y).
    { assert (Hin : In x (y :: l2))
        by (apply (Permutation_in _ Hp); left; reflexivity).
      destruct Hin as [E|Hin]; [congruence|].
      assert (Hin' : In y (x :: l1))
        by (apply (Permutation_in _ (Permutation_sym Hp)); left; reflexivity).
      destruct Hin' as [E|Hin']; [congruence|].
      pose proof (Hy x Hin) as Hyx. pose proof (Hx y Hin') as Hxy.
      unfold key_lt in Hyx, Hxy.
      rewrite (lt_key_asym _ _ Hyx) in Hxy. discriminate. }
    subst y. f_equal. apply IH; [assumption..|].
    exact (Permutation_cons_inv Hp).
Qed.

Lemma key_apart_sym x1 x2 : key_apart x1 x2 -> key_apart x2 x1.
Proof. unfold key_apart. tauto. Qed.

Lemma FOP_snoc l x :
  ForallOrdPairs key_apart l -> Forall (key_apart x) l ->
  ForallOrdPairs key_apart (l ++ [x])%list.
Proof.
  induction 1 as [|y l Hy Hl IH]; intros Hx; simpl.
  - constructor; constructor.
  - inversion Hx as [|? ? Hxy Hx']; subst.
    constructor; [|apply IH; assumption].
    apply Forall_app. split; [assumption|].
    constructor; [apply key_apart_sym; assumption | constructor].
Qed.

Lemma FOP_rev l :
  ForallOrdPairs key_apart l -> ForallOrdPairs key_apart (rev l).
Proof.
  induction 1 as [|x l Hx Hl IH]; simpl; [constructor|].
  apply FOP_snoc; [exact IH | apply Forall_rev; exact Hx].
Qed.

(** With pairwise strictly ordered keys the sort does not depend on the
    order of the input. *)
Lemma stable_sort_rev l :
  ForallOrdPairs key_apart l -> stable_sort (rev l) = stable_sort l.
Proof.
  intros H. apply sorted_perm_unique.
  - apply stable_sort_sorted, FOP_rev, H.
  - apply stable_sort_sorted, H.
  - rewrite !stable_sort_perm. symmetry. apply Permutation_rev.
Qed.
End StableSort.

(* ===================================================================== *)
(** ** The procedure of the sort *)
(* ===================================================================== *)

Lemma lt_key_irrefl (a : scalar) : lt_key a a = false.
Proof.
  destruct (lt_key a a) eqn:H; [|reflexivity].
  rewrite (lt_key_asym a a H) in H. discriminate.
Qed.

Section RunSort.
Context {A : Type}.
Implicit Types (x pivot : scalar * A) (l a : list (scalar * A)).

Lemma take_run_split descending x l run rest :
  take_run descending x l = (run, rest) -> l = (run ++ rest)%list.
Proof.
  revert x run rest. induction l as [|y l IH]; intros x run rest; simpl.
  - intros H. inversion H. reflexivity.
  - destruct (Bool.eqb (lt_key (fst y) (fst x)) descending).
    + destruct (take_run descending y l) as [run' rest'] eqn:Hr.
      intros H. inversion H; subst. simpl. f_equal. exact (IH _ _ _ Hr).
    + intros H. inversion H. reflexivity.
Qed.

Lemma take_run_chain descending x l run rest :
  take_run descending x l = (run, rest) ->
  Sorted (fun p q => lt_key (fst q) (fst p) = descending) (x :: run).
Proof.
  revert x run rest. induction l as [|y l IH]; intros x run rest; simpl.
  - intros H. inversion H. repeat constructor.
  - destruct (Bool.eqb (lt_key (fst y) (fst x)) descending) eqn:E.
    + destruct (take_run descending y l) as [run' rest'] eqn:Hr.
      intros H. inversion H; subst. constructor; [exact (IH _ _ _ Hr)|].
      constructor. apply Bool.eqb_prop. exact E.
    + intros H. inversion H. repeat constructor.
Qed.

Lemma take_run_all x l :
  no_descent (x :: l) -> take_run false x l = (l, []).
Proof.
  revert x. induction l as [|y l IH]; intros x H; simpl; [reflexivity|].
  apply Sorted_inv in H. destruct H as [Hs Hh]. apply HdRel_inv in Hh.
  unfold key_step in Hh. rewrite Hh. simpl. rewrite (IH y Hs). reflexivity.
Qed.

(** Putting [x] at the place [i] of a list without descent. *)
Lemma sorted_insert_at (R : scalar * A -> scalar * A -> Prop) a i x d :
  Sorted R a -> (i <= List.length a)%nat ->
  (i = 0%nat \/ R (nth (i - 1) a d) x) ->
  (i = List.length a \/ R x (nth i a d)) ->
  Sorted R (firstn i a ++ x :: skipn i a)%list.
Proof.
  revert i. induction a as [|b a IH]; intros i Hs Hi Hl Hr.
  - simpl in Hi. assert (i = 0%nat) by lia. subst. simpl.
    repeat constructor.
  - destruct i as [|i].
    + simpl. constructor; [exact Hs|]. constructor.
      destruct Hr as [Hr|Hr]; [discriminate | exact Hr].
    + apply Sorted_inv in Hs. destruct Hs as [Hs Hb].
      simpl in Hi. cbn [firstn skipn app]. constructor.
      * apply IH; [exact Hs | lia | |].
        -- destruct i as [|i]; [left; reflexivity|]. right.
           destruct Hl as [Hl|Hl]; [discriminate|].
           replace (S (S i) - 1)%nat with (S i) in Hl by lia.
           replace (S i - 1)%nat with i by lia. exact Hl.
        -- destruct Hr as [Hr|Hr]; [left; simpl in Hr; lia | right; exact Hr].
      * destruct i as [|i].
        -- simpl. constructor.
           destruct Hl as [Hl|Hl]; [discriminate | exact Hl].
        -- destruct a as [|c a]; [simpl in Hi; lia|].
           simpl. constructor. exact (HdRel_inv Hb).
Qed.


Lemma binary_insert_perm a pivot :
  Permutation (binary_insert a pivot) (pivot :: a).
Proof.
  unfold binary_insert.
  set (i := bisect (S (List.length a)) a pivot 0 (List.length a)).
  rewrite <- (firstn_skipn i a) at 3. symmetry. apply Permutation_middle.
Qed.


Lemma fold_insert_perm (rest run : list (scalar * A)) :
  Permutation (fold_left binary_insert rest run) (run ++ rest)%list.
Proof.
  revert run. induction rest as [|x rest IH]; intros run; simpl.
  - rewrite app_nil_r. reflexivity.
  - rewrite IH, binary_insert_perm. simpl.
    apply Permutation_middle.
Qed.


(** Reversing a strictly descending list. *)
Lemma sorted_rev_strict l :
  Sorted (fun p q => lt_key (fst q) (fst p) = true) l ->
  no_descent (rev l).
Proof.
  induction 1 as [|x l Hs IH Hx]; simpl; [constructor|].
  pose proof (sorted_insert_at key_step (rev l) (List.length (rev l)) x x IH
                (Nat.le_refl _)) as H.
  rewrite firstn_all, skipn_all in H. apply H; [|left; reflexivity].
  destruct l as [|y l]; [left; reflexivity|]. right.
  apply HdRel_inv in Hx.
  rewrite rev_nth by (rewrite length_rev; simpl; lia).
  rewrite length_rev.
  replace (List.length (y :: l) - S (List.length (y :: l) - 1))%nat
    with 0%nat by (simpl; lia).
  simpl. unfold key_step. exact (lt_key_asym _ _ Hx).
Qed.

Lemma count_run_spec l run rest :
  count_run l = (run, rest) ->
  Permutation (run ++ rest)%list l /\ no_descent run.
Proof.
  unfold count_run. destruct l as [|x [|y l]].
  - intros H. inversion H. split; [reflexivity | constructor].
  - intros H. inversion H. split; [reflexivity | repeat constructor].
  - destruct (take_run (lt_key (fst y) (fst x)) y l) as [run' rest'] eqn:Hr.
    pose proof (take_run_split _ _ _ _ _ Hr) as Hsplit.
    pose proof (take_run_chain _ _ _ _ _ Hr) as Hchain.
    destruct (lt_key (fst y) (fst x)) eqn:E; intros H;
      apply pair_equal_spec in H; destruct H as [<- <-]; rewrite Hsplit.
    + split.
      * change (x :: y :: run' ++ rest')%list
          with ((x :: y :: run') ++ rest')%list.
        apply Permutation_app_tail. symmetry. apply Permutation_rev.
      * apply sorted_rev_strict. constructor; [exact Hchain|].
        constructor. exact E.
    + split; [reflexivity|].
      constructor; [exact Hchain|]. constructor. exact E.
Qed.

Lemma run_sort_perm l : Permutation (run_sort l) l.
Proof.
  unfold run_sort. destruct (count_run l) as [run rest] eqn:H.
  rewrite fold_insert_perm. exact (proj1 (count_run_spec l run rest H)).
Qed.


(** A list without descent is one run. *)
Lemma run_sort_id l : no_descent l -> run_sort l = l.
Proof.
  intros H. unfold run_sort, count_run. destruct l as [|x [|y l]];
    [reflexivity..|].
  apply Sorted_inv in H. destruct H as [Hs Hh]. apply HdRel_inv in Hh.
  unfold key_step in Hh. rewrite Hh, (take_run_all y l Hs). reflexivity.
Qed.



Lemma stable_sort_step_id l : no_descent l -> stable_sort l = l.
Proof.
  induction l as [|x l IH]; intros H; cbn [stable_sort]; [reflexivity|].
  apply Sorted_inv in H. destruct H as [Hs Hh]. rewrite (IH Hs).
  destruct l as [|y l]; [reflexivity|]. cbn [insert_key].
  apply HdRel_inv in Hh. unfold key_step in Hh. rewrite Hh. reflexivity.
Qed.

Lemma sort_pairs_perm l : Permutation (sort_pairs l) l.
Proof.
  unfold sort_pairs. destruct (existsb _ l);
    [apply run_sort_perm | apply stable_sort_perm].
Qed.


Lemma sort_pairs_id l : no_descent l -> sort_pairs l = l.
Proof.
  intros H. unfold sort_pairs. destruct (existsb _ l);
    [apply run_sort_id | apply stable_sort_step_id]; exact H.
Qed.

Lemma sort_pairs_nan_free l :
  nan_free l = true -> sort_pairs l = stable_sort l.
Proof.
  unfold nan_free, sort_pairs. intros H. apply negb_true_iff in H.
  rewrite H. reflexivity.
Qed.

Lemma nan_free_perm l m : Permutation l m -> nan_free l = nan_free m.
Proof.
  intros Hp. unfold nan_free. f_equal. apply eq_true_iff_eq.
  rewrite !existsb_exists. split; intros [p [Hin Hp']]; exists p;
    (split; [|exact Hp']).
  - exact (Permutation_in _ Hp Hin).
  - exact (Permutation_in _ (Permutation_sym Hp) Hin).
Qed.
End RunSort.

(* ===================================================================== *)
(** ** [sorted] and [sort_income] *)
(* ===================================================================== *)

Lemma list_map_r_ok {A B : Type} (f : A -> result B) (l : list A)
    (ys : list B) :
  list_map_r f l = Ok ys -> Forall2 (fun x y => f x = Ok y) l ys.
Proof.
  revert ys. induction l as [|x l IH]; simpl; intros ys H.
  - inversion H. constructor.
  - apply bind_ok in H. destruct H as [y [Hy H]].
    apply bind_ok in H. destruct H as [rest [Hrest H]].
    inversion H; subst. constructor; auto.
Qed.

Lemma list_map_r_all {A B : Type} (f : A -> result B) (l : list A)
    (ys : list B) :
  Forall2 (fun x y => f x = Ok y) l ys -> list_map_r f l = Ok ys.
Proof.
  induction 1 as [|x y l ys Hxy _ IH]; simpl; [reflexivity|].
  rewrite Hxy, IH. reflexivity.
Qed.

Lemma list_map_r_raise {A B : Type} (f : A -> result B) (l : list A)
    (e : exn) :
  list_map_r f l = Raise e -> exists x, In x l /\ f x = Raise e.
Proof.
  induction l as [|x l IH]; simpl; [discriminate|].
  destruct (f x) as [y|e'] eqn:Hx; simpl.
  - destruct (list_map_r f l) as [ys|e'']; simpl; [discriminate|].
    intros H. inversion H; subst.
    destruct (IH eq_refl) as [z [Hz1 Hz2]]. eauto.
  - intros H. inversion H; subst. eauto.
Qed.

Lemma Forall2_rev {A B : Type} (R : A -> B -> Prop) (l : list A)
    (m : list B) :
  Forall2 R l m -> Forall2 R (rev l) (rev m).
Proof.
  induction 1; simpl; [constructor|].
  apply Forall2_app; [assumption | constructor; [assumption | constructor]].
Qed.

Lemma combine_snoc {A B : Type} (l : list A) (m : list B) (x : A) (y : B) :
  List.length l = List.length m ->
  combine (l ++ [x])%list (m ++ [y])%list = (combine l m ++ [(x, y)])%list.
Proof.
  revert m. induction l as [|a l IH]; intros [|b m] H; simpl in *;
    try discriminate; [reflexivity|].
  rewrite IH by lia. reflexivity.
Qed.

Lemma combine_rev {A B : Type} (l : list A) (m : list B) :
  List.length l = List.length m -> combine (rev l) (rev m) = rev (combine l m).
Proof.
  revert m. induction l as [|a l IH]; intros [|b m] H; simpl in *;
    try discriminate; [reflexivity|].
  rewrite combine_snoc by (rewrite !length_rev; lia).
  rewrite IH by lia. reflexivity.
Qed.

Lemma map_snd_combine {A B : Type} (l : list A) (m : list B) :
  List.length l = List.length m -> map snd (combine l m) = m.
Proof.
  revert m. induction l as [|a l IH]; intros [|b m] H; simpl in *;
    try discriminate; [reflexivity|].
  rewrite IH by lia. reflexivity.
Qed.

Lemma mutually_orderable_iff (keys : list scalar) :
  mutually_orderable keys = true <->
  forall a b, In a keys -> In b keys -> comparable a b = true.
Proof.
  unfold mutually_orderable. rewrite forallb_forall. split.
  - intros H a b Ha Hb. specialize (H a Ha).
    rewrite forallb_forall in H. auto.
  - intros H a Ha. apply forallb_forall. auto.
Qed.

Lemma mutually_orderable_rev (keys : list scalar) :
  mutually_orderable (rev keys) = mutually_orderable keys.
Proof.
  apply eq_true_iff_eq. rewrite !mutually_orderable_iff.
  split; intros H a b Ha Hb; apply H;
    first [apply in_rev; assumption | apply in_rev in Ha, Hb; assumption].
Qed.

Lemma py_sorted_ok {A : Type} (key : A -> result scalar) (data out : list A)
    (reverse : bool) :
  py_sorted key data reverse = Ok out ->
  exists keys,
    list_map_r key data = Ok keys /\
    ((List.length keys <? 2)%nat || mutually_orderable keys = true) /\
    out = map snd (sorted_pairs keys data reverse).
Proof.
  unfold py_sorted, sorted_pairs. intros H.
  apply bind_ok in H. destruct H as [keys [Hk H]].
  exists keys. split; [exact Hk|].
  destruct ((List.length keys <? 2)%nat || mutually_orderable keys);
    [|discriminate].
  split; [reflexivity|].
  inversion H. destruct reverse; reflexivity.
Qed.

Lemma sorted_pairs_perm {A : Type} (keys : list scalar) (data : list A)
    (reverse : bool) :
  Permutation (sorted_pairs keys data reverse) (combine keys data).
Proof.
  unfold sorted_pairs. destruct reverse.
  - rewrite <- Permutation_rev, sort_pairs_perm, <- Permutation_rev.
    reflexivity.
  - apply sort_pairs_perm.
Qed.

(** Without a NaN key the sort is the stable insertion sort. *)
Lemma sorted_pairs_stable {A : Type} (keys : list scalar) (data : list A)
    (reverse : bool) :
  nan_free (combine keys data) = true ->
  sorted_pairs keys data reverse =
  if reverse then rev (stable_sort (rev (combine keys data)))
  else stable_sort (combine keys data).
Proof.
  intros Hn. unfold sorted_pairs. destruct reverse.
  - rewrite sort_pairs_nan_free; [reflexivity|].
    rewrite <- Hn. apply nan_free_perm. symmetry. apply Permutation_rev.
  - apply sort_pairs_nan_free, Hn.
Qed.

Lemma sorted_pairs_class {A : Type} (P : scalar -> bool)
    (keys : list scalar) (data : list A) (reverse : bool) :
  nan_free (combine keys data) = true ->
  (forall a b, P a = true -> P b = true -> lt_key b a = false) ->
  filter (fun p => P (fst p)) (sorted_pairs keys data reverse) =
  filter (fun p => P (fst p)) (combine keys data).
Proof.
  intros Hn HP. rewrite (sorted_pairs_stable _ _ _ Hn). destruct reverse.
  - rewrite filter_rev, (stable_sort_class P HP), filter_rev.
    apply rev_involutive.
  - apply (stable_sort_class P HP).
Qed.

(** The class of a key among the records is its class among the pairs. *)
Lemma has_key_pairs (field : string) (k : scalar)
    (l : list (scalar * record)) :
  Forall (fun p => sort_key field (snd p) = Ok (fst p)) l ->
  filter (has_key field k) (map snd l) =
  map snd (filter (fun p => py_eq k (fst p)) l).
Proof.
  induction 1 as [|p l Hp _ IH]; simpl; [reflexivity|].
  unfold has_key at 1. rewrite Hp.
  destruct (py_eq k (fst p)); simpl; rewrite IH; reflexivity.
Qed.

Lemma combine_keys (field : string) (data : list record)
    (keys : list scalar) :
  Forall2 (fun x y => sort_key field x = Ok y) data keys ->
  Forall (fun p => sort_key field (snd p) = Ok (fst p)) (combine keys data).
Proof. induction 1; simpl; constructor; assumption. Qed.

Lemma sort_key_mem (field : string) (x : record) (k : scalar) :
  sort_key field x = Ok k -> dict_mem x field = true.
Proof.
  unfold sort_key, dict_item, dict_mem.
  destruct (dict_find x field); [reflexivity | discriminate].
Qed.

Lemma sort_key_not_value_error (field : string) (x : record) (msg : string) :
  sort_key field x <> Raise (ValueError msg).
Proof.
  unfold sort_key, dict_item.
  destruct (dict_find x field) as [v|]; simpl; [|discriminate].
  destruct (String.eqb field "date" && is_str v); [|discriminate].
  destruct v; simpl; try discriminate.
  unfold py_int. destruct (int_literal _); simpl; discriminate.
Qed.

Lemma py_sorted_not_value_error (field : string) (data : list record)
    (reverse : bool) (msg : string) :
  py_sorted (sort_key field) data reverse <> Raise (ValueError msg).
Proof.
  unfold py_sorted. intros H.
  destruct (list_map_r (sort_key field) data) as [keys|e] eqn:Hk; simpl in H.
  - destruct ((List.length keys <? 2)%nat || mutually_orderable keys);
      discriminate.
  - inversion H; subst.
    apply list_map_r_raise in Hk. destruct Hk as [x [_ Hx]].
    exact (sort_key_not_value_error field x msg Hx).
Qed.

(** Keys that are pairwise different and ordered are pairwise strictly
    ordered. *)
Lemma distinct_keys_apart {A : Type} (keys : list scalar) (data : list A) :
  distinct_keys keys = true -> mutually_orderable keys = true ->
  (forall k, In k keys -> is_nan k = false) ->
  ForallOrdPairs key_apart (combine keys data).
Proof.
  rewrite mutually_orderable_iff. revert data.
  induction keys as [|k keys IH]; intros data Hd Ho Hn; [constructor|].
  destruct data as [|x data]; [constructor|].
  simpl in Hd. apply andb_prop in Hd. destruct Hd as [Hk Hd].
  rewrite forallb_forall in Hk. simpl. constructor.
  - apply Forall_forall. intros [k' x'] Hin.
    apply in_combine_l in Hin.
    apply lt_key_total.
    + apply Ho; [left; reflexivity | right; exact Hin].
    + specialize (Hk k' Hin). apply negb_true_iff in Hk. exact Hk.
    + apply Hn. left. reflexivity.
    + apply Hn. right. exact Hin.
  - apply IH; [exact Hd| |].
    + intros a b Ha Hb. apply Ho; right; assumption.
    + intros a Ha. apply Hn. right. exact Ha.
Qed.

(** The keys of records none of which has a NaN key. *)
Lemma no_nan_keys (field : string) (data : list record) (keys : list scalar) :
  sort_keys field data = Ok keys -> no_nan_key field data ->
  forall k, In k keys -> is_nan k = false.
Proof.
  unfold sort_keys, no_nan_key. intros Hk Hn k Hin.
  apply list_map_r_ok in Hk.
  assert (Hex : exists r, In r data /\ sort_key field r = Ok k).
  { clear Hn. induction Hk as [|r k' data keys Hr Hk IH];
      [destruct Hin|].
    destruct Hin as [<-|Hin].
    - exists r. split; [left; reflexivity | exact Hr].
    - destruct (IH Hin) as [r' [Hin' Hr']]. exists r'.
      split; [right; exact Hin' | exact Hr']. }
  destruct Hex as [r [Hin' Hr]]. specialize (Hn r Hin').
  destruct k as [| | |[]|]; try reflexivity. contradiction.
Qed.

Lemma nan_free_combine {A : Type} (keys : list scalar) (data : list A) :
  (forall k, In k keys -> is_nan k = false) ->
  nan_free (combine keys data) = true.
Proof.
  intros Hn. unfold nan_free. apply negb_true_iff.
  destruct (existsb _ _) eqn:E; [|reflexivity].
  apply existsb_exists in E. destruct E as [[k x] [Hin Hk]].
  apply in_combine_l in Hin. simpl in Hk. rewrite (Hn k Hin) in Hk.
  discriminate Hk.
Qed.

(** [no_nan_key] can be checked record by record. *)
Lemma no_nan_key_check (field : string) (data : list record) :
  forallb (fun r => match sort_key field r with
                    | Ok (SFloat FNaN) => false
                    | _ => true
                    end) data = true ->
  no_nan_key field data.
Proof.
  rewrite forallb_forall. intros H r Hin Hr. specialize (H r Hin).
  rewrite Hr in H. discriminate H.
Qed.

Lemma no_nan_combine (field : string) (data : list record)
    (keys : list scalar) :
  sort_keys field data = Ok keys -> no_nan_key field data ->
  nan_free (combine keys data) = true.
Proof.
  intros Hk Hn. apply nan_free_combine. exact (no_nan_keys _ _ _ Hk Hn).
Qed.

Lemma short_rev {A : Type} (l : list A) : (List.length l < 2)%nat -> rev l = l.
Proof. destruct l as [|a [|b l]]; simpl; intros H; [reflexivity..|lia]. Qed.

Lemma Forall2_length_eq {A B : Type} (R : A -> B -> Prop) (l : list A)
    (m : list B) :
  Forall2 R l m -> List.length l = List.length m.
Proof. induction 1; simpl; congruence. Qed.

(* ===================================================================== *)
(** ** The sort engine *)
(* ===================================================================== *)

(** C5: [sort_income] returns the empty list on the empty list, whatever
    the field; on a list whose first record lacks the field it raises the
    [ValueError] whose message names the field; and only the first record
    is checked: when the first record has the field, that error is never
    raised, and a second record without the field is a [KeyError]. *)
Theorem sort_income_checks_first_record (field : string) (ascending : bool) :
  sort_income [] field ascending = Ok [] /\
  (forall first rest,
      dict_mem first field = false ->
      sort_income (first :: rest) field ascending
      = Raise (ValueError (invalid_field_msg field)) /\
      exists pre post, invalid_field_msg field = pre ++ field ++ post) /\
  (forall first rest msg,
      dict_mem first field = true ->
      sort_income (first :: rest) field ascending <> Raise (ValueError msg)) /\
  (forall first second k,
      sort_key field first = Ok k -> dict_mem second field = false ->
      sort_income [first; second] field ascending = Raise (KeyError field)).
Proof.
  split; [reflexivity | split; [|split]].
  - intros first rest Hmem. split.
    + unfold sort_income. rewrite Hmem. reflexivity.
    + exists "Invalid field '", "'. Please provide a valid field name.".
      reflexivity.
  - intros first rest msg Hmem. unfold sort_income. rewrite Hmem.
    apply py_sorted_not_value_error.
  - intros first second k Hk Hmem. unfold sort_income.
    rewrite (sort_key_mem field first k Hk).
    unfold py_sorted. cbn [negb list_map_r]. rewrite Hk. cbn [bind].
    unfold sort_key at 1, dict_item. unfold dict_mem in Hmem.
    destruct (dict_find second field); [discriminate | reflexivity].
Qed.

Lemma sort_income_checks_first_record_witness :
  sort_income [[("revenue", SInt 1)]; [("netIncome", SInt 2)]] "netIncome" true
  = Raise (ValueError "Invalid field 'netIncome'. Please provide a valid field name.")
  /\ sort_income [[("revenue", SInt 1)]; [("netIncome", SInt 2)]] "revenue" true
     <> Raise (ValueError "Invalid field 'revenue'. Please provide a valid field name.")
  /\ sort_income [[("revenue", SInt 1)]; [("netIncome", SInt 2)]] "revenue" false
     = Raise (KeyError "revenue").
Proof.
  split; [|split].
  - destruct (sort_income_checks_first_record "netIncome" true)
      as [_ [H _]].
    apply (H [("revenue", SInt 1)] [[("netIncome", SInt 2)]]). reflexivity.
  - destruct (sort_income_checks_first_record "revenue" true)
      as [_ [_ [H _]]].
    apply (H [("revenue", SInt 1)] [[("netIncome", SInt 2)]]). reflexivity.
  - destruct (sort_income_checks_first_record "revenue" false)
      as [_ [_ [_ H]]].
    apply (H [("revenue", SInt 1)] [("netIncome", SInt 2)] (SInt 1));
      reflexivity.
Defined.

Lemma sort_income_ok (data out : list record) (field : string)
    (ascending : bool) :
  sort_income data field ascending = Ok out ->
  exists keys,
    sort_keys field data = Ok keys /\
    ((List.length keys <? 2)%nat || mutually_orderable keys = true) /\
    out = map snd (sorted_pairs keys data (negb ascending)).
Proof.
  unfold sort_income, sort_keys. destruct data as [|first rest].
  - intros H. inversion H. exists []. repeat split.
    destruct ascending; reflexivity.
  - destruct (negb (dict_mem first field)); [discriminate|].
    apply py_sorted_ok.
Qed.

(** C6, as the code has it: the sort is stable in both directions when no
    sort key is a NaN.  When [sort_income] then returns, its result is a
    rearrangement of the data in which, for every key [k], the records
    whose sort key is equal to [k] come in their input order. *)
Theorem sort_income_stable (data out : list record) (field : string)
    (ascending : bool) :
  no_nan_key field data ->
  sort_income data field ascending = Ok out ->
  Permutation out data /\
  forall k, filter (has_key field k) out = filter (has_key field k) data.
Proof.
  intros Hnan H. apply sort_income_ok in H.
  destruct H as [keys [Hk [_ ->]]].
  pose proof (no_nan_combine field data keys Hk Hnan) as Hfree.
  apply list_map_r_ok in Hk.
  assert (Hlen : List.length keys = List.length data)
    by (symmetry; exact (Forall2_length_eq _ _ _ Hk)).
  assert (Hdata : map snd (combine keys data) = data)
    by (apply map_snd_combine; exact Hlen).
  pose proof (combine_keys field data keys Hk) as Hkv.
  split.
  - rewrite <- Hdata at 2. apply Permutation_map, sorted_pairs_perm.
  - intros k. rewrite <- Hdata at 2.
    rewrite !has_key_pairs.
    + rewrite (sorted_pairs_class (py_eq k)); [reflexivity|exact Hfree|].
      intros a b. apply py_eq_not_lt.
    + exact Hkv.
    + exact (Permutation_Forall
               (Permutation_sym (sorted_pairs_perm keys data _)) Hkv).
Qed.

Lemma sort_income_stable_witness :
  filter (has_key "revenue" (SInt 1))
    [[("revenue", SInt 1); ("id", SStr "a")];
     [("revenue", SInt 1); ("id", SStr "b")];
     [("revenue", SInt 0); ("id", SStr "c")]]
  = filter (has_key "revenue" (SInt 1))
      [[("revenue", SInt 1); ("id", SStr "a")];
       [("revenue", SInt 0); ("id", SStr "c")];
       [("revenue", SInt 1); ("id", SStr "b")]].
Proof.
  refine (proj2 (sort_income_stable
           [[("revenue", SInt 1); ("id", SStr "a")];
            [("revenue", SInt 0); ("id", SStr "c")];
            [("revenue", SInt 1); ("id", SStr "b")]]
           _ "revenue" false _ eq_refl) (SInt 1)).
  apply no_nan_key_check. reflexivity.
Defined.

(** C6, as the spec states it, fails on NaN keys: no key compares below a
    NaN, so the sort takes the three records with key 0 out of their input
    order, here to d, g, f from d, f, g. *)
Lemma sort_income_not_stable_on_nan :
  exists out,
    sort_income
      [[("revenue", SFloat FNaN); ("id", SStr "a")];
       [("revenue", SFloat FNaN); ("id", SStr "b")];
       [("revenue", SInt 1); ("id", SStr "c")];
       [("revenue", SInt 0); ("id", SStr "d")];
       [("revenue", SFloat FNaN); ("id", SStr "e")];
       [("revenue", SInt 0); ("id", SStr "f")];
       [("revenue", SInt 0); ("id", SStr "g")]]
      "revenue" true = Ok out /\
    filter (has_key "revenue" (SInt 0)) out
    = [[("revenue", SInt 0); ("id", SStr "d")];
       [("revenue", SInt 0); ("id", SStr "g")];
       [("revenue", SInt 0); ("id", SStr "f")]] /\
    filter (has_key "revenue" (SInt 0)) out
    <> filter (has_key "revenue" (SInt 0))
         [[("revenue", SFloat FNaN); ("id", SStr "a")];
          [("revenue", SFloat FNaN); ("id", SStr "b")];
          [("revenue", SInt 1); ("id", SStr "c")];
          [("revenue", SInt 0); ("id", SStr "d")];
          [("revenue", SFloat FNaN); ("id", SStr "e")];
          [("revenue", SInt 0); ("id", SStr "f")];
          [("revenue", SInt 0); ("id", SStr "g")]].
Proof.
  eexists. split; [vm_compute; reflexivity|].
  split; [vm_compute; reflexivity | vm_compute; discriminate].
Qed.

Lemma sort_income_run (data : list record) (keys : list scalar)
    (field : string) (ascending : bool) :
  sort_keys field data = Ok keys ->
  (List.length keys <? 2)%nat || mutually_orderable keys = true ->
  sort_income data field ascending
  = Ok (map snd (sorted_pairs keys data (negb ascending))).
Proof.
  unfold sort_keys, sort_income. intros Hk Hc.
  destruct data as [|first rest].
  - inversion Hk. destruct ascending; reflexivity.
  - assert (Hmem : dict_mem first field = true).
    { apply list_map_r_ok in Hk. inversion Hk; subst.
      eapply sort_key_mem; eassumption. }
    rewrite Hmem. cbn [negb]. unfold py_sorted. rewrite Hk. cbn [bind].
    rewrite Hc. unfold sorted_pairs. destruct ascending; reflexivity.
Qed.

Lemma sort_keys_rev (data : list record) (keys : list scalar)
    (field : string) :
  sort_keys field data = Ok keys ->
  sort_keys field (rev data) = Ok (rev keys).
Proof.
  unfold sort_keys. intros H.
  apply list_map_r_all, Forall2_rev, list_map_r_ok, H.
Qed.

(** C1, as the code has it: sorting descending keeps the input order among
    records with equal keys, so it is not the reverse of the ascending
    sort when two keys are equal.  (1) When the descending sort returns,
    it is the reverse of the ascending sort of the reversed data.  (2) When
    no two records have equal keys and no key is a NaN, the descending
    sort returns exactly when the ascending sort does, and then returns
    its reverse. *)
Theorem sort_descending_reverses_ascending (data : list record)
    (field : string) :
  (forall out,
      sort_income data field false = Ok out ->
      sort_income (rev data) field true = Ok (rev out)) /\
  ((forall keys, sort_keys field data = Ok keys -> distinct_keys keys = true) ->
   no_nan_key field data ->
   returned (sort_income data field false)
   = option_map (@rev record) (returned (sort_income data field true))).
Proof.
  split.
  - intros out H. apply sort_income_ok in H.
    destruct H as [keys [Hk [Hc ->]]].
    assert (Hlen : List.length keys = List.length data).
    { symmetry. apply list_map_r_ok in Hk.
      exact (Forall2_length_eq _ _ _ Hk). }
    rewrite (sort_income_run (rev data) (rev keys) field true
               (sort_keys_rev data keys field Hk)).
    + unfold sorted_pairs. cbn [negb].
      rewrite combine_rev by exact Hlen.
      rewrite <- map_rev, rev_involutive. reflexivity.
    + rewrite length_rev, mutually_orderable_rev. exact Hc.
  - intros Hd Hn.
    pose proof (fun keys Hk => no_nan_keys field data keys Hk Hn) as Hn'.
    unfold sort_keys in Hd, Hn'. clear Hn.
    unfold sort_income. destruct data as [|first rest];
      [reflexivity|].
    destruct (negb (dict_mem first field)); [reflexivity|].
    unfold py_sorted. cbn [negb].
    destruct (list_map_r (sort_key field) (first :: rest)) as [keys|e];
      [|reflexivity].
    specialize (Hd keys eq_refl). specialize (Hn' keys eq_refl).
    cbn [bind].
    destruct ((List.length keys <? 2)%nat) eqn:Hlen; cbn [orb].
    + cbn [returned option_map]. rewrite map_rev.
      apply Nat.ltb_lt in Hlen.
      rewrite (short_rev (combine keys (first :: rest))); [reflexivity|].
      rewrite length_combine. lia.
    + destruct (mutually_orderable keys) eqn:Ho; [|reflexivity].
      cbn [returned option_map]. rewrite map_rev.
      pose proof (nan_free_combine keys (first :: rest) Hn') as Hfree.
      rewrite (sort_pairs_nan_free (combine keys (first :: rest)) Hfree).
      rewrite sort_pairs_nan_free.
      * rewrite (stable_sort_rev (combine keys (first :: rest)));
          [reflexivity|].
        apply distinct_keys_apart; assumption.
      * rewrite <- Hfree. apply nan_free_perm. symmetry.
        apply Permutation_rev.
Qed.

Lemma sort_descending_reverses_ascending_witness :
  returned
    (sort_income
       [[("revenue", SInt 200); ("date", SStr "2021-01-01")];
        [("revenue", SInt 100); ("date", SStr "2020-01-01")];
        [("revenue", SInt 300); ("date", SStr "2019-01-01")]]
       "revenue" false)
  = option_map (@rev record)
      (returned
         (sort_income
            [[("revenue", SInt 200); ("date", SStr "2021-01-01")];
             [("revenue", SInt 100); ("date", SStr "2020-01-01")];
             [("revenue", SInt 300); ("date", SStr "2019-01-01")]]
            "revenue" true))
  /\ sort_income
       (rev [[("revenue", SInt 1); ("id", SStr "a")];
             [("revenue", SInt 1); ("id", SStr "b")]])
       "revenue" true
     = Ok (rev [[("revenue", SInt 1); ("id", SStr "a")];
                [("revenue", SInt 1); ("id", SStr "b")]]).
Proof.
  split.
  - apply (proj2 (sort_descending_reverses_ascending
             [[("revenue", SInt 200); ("date", SStr "2021-01-01")];
              [("revenue", SInt 100); ("date", SStr "2020-01-01")];
              [("revenue", SInt 300); ("date", SStr "2019-01-01")]]
             "revenue")).
    + intros keys Hk. vm_compute in Hk. inversion Hk. reflexivity.
    + apply no_nan_key_check. reflexivity.
  - apply (proj1 (sort_descending_reverses_ascending
             [[("revenue", SInt 1); ("id", SStr "a")];
              [("revenue", SInt 1); ("id", SStr "b")]]
             "revenue")).
    reflexivity.
Defined.

(** C1, as the spec states it, fails on two records with the same key: the
    descending sort keeps them in input order, the reversed ascending sort
    swaps them. *)
Lemma sort_descending_not_reverse_of_ascending :
  sort_income
    [[("revenue", SInt 1); ("id", SStr "a")];
     [("revenue", SInt 1); ("id", SStr "b")]] "revenue" false
  <> rmap (@rev record)
       (sort_income
          [[("revenue", SInt 1); ("id", SStr "a")];
           [("revenue", SInt 1); ("id", SStr "b")]] "revenue" true).
Proof. vm_compute. discriminate. Qed.


(* ===================================================================== *)
(** ** More on the filter engine *)
(* ===================================================================== *)

Lemma filter_loop_nil (f items : dict json) :
  filter_loop f items [] = Ok [].
Proof.
  induction items as [|item items IH]; simpl; [reflexivity|].
  rewrite filter_step_cond. destruct (item_cond f item); simpl; exact IH.
Qed.

(** X1: on the empty dataset [filter_income] returns the empty list for
    every mapping; no bound is compared, so no bound can raise. *)
Theorem filter_income_empty_data (f : dict json) : filter_income [] f = Ok [].
Proof. apply filter_loop_nil. Qed.

Lemma item_cond_inactive (f : dict json) (k : string) (v : json) :
  (str_endswith k "_min" = true ->
   is_none (dict_get f (str_drop_last 4 k ++ "_max") (JAtom SNone)) = true) ->
  item_cond f (k, v) = None.
Proof.
  intros H. unfold item_cond.
  destruct (str_endswith k "_min"); [|reflexivity].
  rewrite H; reflexivity.
Qed.

Lemma filter_loop_inactive (f items : dict json) (d : list record) :
  (forall item, In item items -> item_cond f item = None) ->
  filter_loop f items d = Ok d.
Proof.
  induction items as [|item items IH]; simpl; intros H; [reflexivity|].
  rewrite filter_step_cond, (H item (or_introl eq_refl)). simpl.
  apply IH. auto.
Qed.

(** X2: a bound without its partner does nothing.  When every key of the
    mapping that ends in [_min] has no [_max] partner, or a partner whose
    value is [None], [filter_income] returns the data unchanged, whatever
    the values of the mapping and the fields of the records. *)
Theorem filter_income_lone_bounds (d : list record) (f : dict json) :
  no_active_filter f -> filter_income d f = Ok d.
Proof.
  intros H. apply filter_loop_inactive. intros [k v] Hin.
  apply item_cond_inactive. exact (H k v Hin).
Qed.

Lemma filter_income_lone_bounds_witness :
  filter_income
    [[("revenue", SStr "n/a")]; [("date", SInt 7)]]
    [("revenue_min", JAtom (SInt 150)); ("date_max", JAtom (SInt 2020));
     ("eps", JList [JAtom (SInt 1); JAtom (SInt 2)]);
     ("netIncome_min", JList []); ("netIncome_max", JAtom SNone)]
  = Ok [[("revenue", SStr "n/a")]; [("date", SInt 7)]].
Proof.
  apply filter_income_lone_bounds.
  intros k v Hin Hk. simpl in Hin.
  repeat (destruct Hin as [Hin|Hin];
          [inversion Hin; subst; try reflexivity; vm_compute in Hk;
           discriminate|]).
  contradiction.
Defined.

Lemma dict_find_perm {V : Type} (f g : dict V) (k : string) :
  Permutation f g -> NoDup (dict_keys f) -> dict_find f k = dict_find g k.
Proof.
  intros Hp Hnd.
  assert (Hnd' : NoDup (dict_keys g)).
  { unfold dict_keys. eapply Permutation_NoDup; [|exact Hnd].
    apply Permutation_map. exact Hp. }
  destruct (dict_find f k) as [v|] eqn:Hf.
  - symmetry. apply In_dict_find; [exact Hnd'|].
    apply (Permutation_in _ Hp). apply dict_find_In. exact Hf.
  - destruct (dict_find g k) as [v|] eqn:Hg; [|reflexivity].
    apply dict_find_In in Hg.
    apply (Permutation_in _ (Permutation_sym Hp)) in Hg.
    apply (In_dict_find f k v Hnd) in Hg. congruence.
Qed.

Lemma item_cond_perm (f g : dict json) (item : string * json) :
  Permutation f g -> NoDup (dict_keys f) -> item_cond f item = item_cond g item.
Proof.
  intros Hp Hnd. destruct item as [k v]. unfold item_cond, dict_get.
  rewrite (dict_find_perm f g _ Hp Hnd). reflexivity.
Qed.

Lemma passes_perm (f g : dict json) (r : record) :
  Permutation f g -> NoDup (dict_keys f) -> passes f r = passes g r.
Proof.
  intros Hp Hnd. unfold passes, passes_items.
  apply eq_true_iff_eq. rewrite !forallb_forall. split; intros H item Hin.
  - rewrite <- (item_cond_perm f g item Hp Hnd). apply H.
    exact (Permutation_in _ (Permutation_sym Hp) Hin).
  - rewrite (item_cond_perm f g item Hp Hnd). apply H.
    exact (Permutation_in _ Hp Hin).
Qed.

(** X3: the order of the items of the mapping does not change a result:
    two mappings with the same items (one value per key) that both return,
    return the same list.  The order can still decide whether the call
    raises: a filter that runs first can drop the record on which a later
    one would raise. *)
Theorem filter_income_item_order :
  (forall (d d1 d2 : list record) (f g : dict json),
      Permutation f g -> NoDup (dict_keys f) ->
      filter_income d f = Ok d1 -> filter_income d g = Ok d2 -> d1 = d2) /\
  (exists (d : list record) (f g : dict json),
      Permutation f g /\ NoDup (dict_keys f) /\
      filter_income d f = Ok [] /\ filter_income d g = Raise TypeError).
Proof.
  split.
  - intros d d1 d2 f g Hp Hnd H1 H2.
    apply filter_income_ok in H1, H2. subst.
    apply filter_ext. intros r. apply passes_perm; assumption.
  - exists [[("revenue", SInt 5); ("date", SInt 2020)]],
           [("revenue_min", JAtom (SInt 10)); ("revenue_max", JAtom (SInt 20));
            ("date_min", JAtom (SInt 2020)); ("date_max", JAtom (SInt 2021))],
           [("date_min", JAtom (SInt 2020)); ("date_max", JAtom (SInt 2021));
            ("revenue_min", JAtom (SInt 10)); ("revenue_max", JAtom (SInt 20))].
    repeat split.
    + change (Permutation ([("revenue_min", JAtom (SInt 10)); ("revenue_max", JAtom (SInt 20))]
                           ++ [("date_min", JAtom (SInt 2020)); ("date_max", JAtom (SInt 2021))])%list
                          ([("date_min", JAtom (SInt 2020)); ("date_max", JAtom (SInt 2021))]
                           ++ [("revenue_min", JAtom (SInt 10)); ("revenue_max", JAtom (SInt 20))])%list).
      apply Permutation_app_comm.
    + unfold dict_keys. simpl.
      repeat constructor; simpl; intuition discriminate.
Qed.

Lemma filter_income_item_order_witness :
  [[("revenue", SInt 15); ("date", SStr "2020-03-31")]]
  = [[("revenue", SInt 15); ("date", SStr "2020-03-31")]].
Proof.
  apply (proj1 filter_income_item_order
           [[("revenue", SInt 15); ("date", SStr "2020-03-31")];
            [("revenue", SInt 50); ("date", SStr "2021-03-31")]]
           _ _
           [("revenue_min", JAtom (SInt 10)); ("revenue_max", JAtom (SInt 20));
            ("date_min", JAtom (SInt 2020)); ("date_max", JAtom (SInt 2021))]
           [("date_min", JAtom (SInt 2020)); ("date_max", JAtom (SInt 2021));
            ("revenue_min", JAtom (SInt 10)); ("revenue_max", JAtom (SInt 20))]).
  - change (Permutation ([("revenue_min", JAtom (SInt 10)); ("revenue_max", JAtom (SInt 20))]
                         ++ [("date_min", JAtom (SInt 2020)); ("date_max", JAtom (SInt 2021))])%list
                        ([("date_min", JAtom (SInt 2020)); ("date_max", JAtom (SInt 2021))]
                         ++ [("revenue_min", JAtom (SInt 10)); ("revenue_max", JAtom (SInt 20))])%list).
    apply Permutation_app_comm.
  - unfold dict_keys. simpl.
    repeat constructor; simpl; intuition discriminate.
  - reflexivity.
  - reflexivity.
Defined.

Lemma json_num_atom (v : json) (x : float) :
  json_num v = Some x -> exists a, v = JAtom a /\ to_num a = Some x.
Proof. destruct v as [a| |]; simpl; [eauto | discriminate..]. Qed.

(** X4: on numbers the filter does not raise.  When every value of the
    mapping is a number, every record has a year, and every field that a
    key [b_min] names ([b] other than [date]) is a number or missing in
    every record, [filter_income] returns the records that pass every
    range filter. *)
Theorem filter_income_total_on_numbers (d : list record) (f : dict json) :
  (forall k v, In (k, v) f -> json_num v <> None) ->
  (forall r, In r d -> year_of r <> None) ->
  (forall r b v, In r d -> In (b ++ "_min", v) f -> b <> "date" ->
                 field_num b r <> None) ->
  filter_income d f = Ok (filter (passes f) d).
Proof.
  intros Hnum Hyear Hfield. apply filter_loop_total.
  intros [k lo] c r Hin Hc Hr. unfold item_cond in Hc.
  destruct (str_endswith k "_min") eqn:Hk; [|discriminate].
  pose proof (str_endswith_split k "_min" Hk) as Hsplit.
  change (String.length "_min") with 4%nat in Hsplit.
  remember (str_drop_last 4 k) as b eqn:Hb. clear Hb.
  destruct (json_num lo) as [x|] eqn:Hlo;
    [|exfalso; exact (Hnum k lo Hin Hlo)].
  apply json_num_atom in Hlo. destruct Hlo as [lo' [-> Hlo]].
  unfold dict_get in Hc.
  destruct (dict_find f (b ++ "_max")) as [hi|] eqn:Hhi;
    [|simpl in Hc; discriminate].
  destruct (json_num hi) as [y|] eqn:Hy;
    [|exfalso; exact (Hnum _ hi (dict_find_In _ _ _ Hhi) Hy)].
  apply json_num_atom in Hy. destruct Hy as [hi' [-> Hy]].
  rewrite (is_none_num hi' y Hy) in Hc.
  destruct (String.eqb_spec b "date") as [->|Hne]; inversion Hc; subst c.
  - destruct (year_of r) as [z|] eqn:Hz;
      [|exfalso; exact (Hyear r Hr Hz)].
    rewrite (date_cond_year lo' hi' x y z r Hlo Hy Hz). eauto.
  - destruct (field_num b r) as [z|] eqn:Hz.
    + rewrite (num_cond_field b lo' hi' x y z r Hlo Hy Hz). eauto.
    + exfalso. subst k. exact (Hfield r b _ Hr Hin Hne Hz).
Qed.

Lemma min_key_base (b k : string) :
  k = b ++ "_min" -> str_endswith k "_min" = true /\ b = str_drop_last 4 k.
Proof.
  intros ->. split.
  - rewrite (str_endswith_app b "_min" "_min") by reflexivity. reflexivity.
  - change 4%nat with (String.length "_min"). symmetry.
    apply str_drop_last_app.
Qed.

Lemma filter_income_total_on_numbers_witness :
  exists d',
    filter_income
      [[("revenue", SInt 100); ("symbol", SStr "AAPL");
        ("date", SStr "2020-09-26")];
       [("symbol", SStr "AAPL"); ("date", SStr "2021-09-25")]]
      [("revenue_min", JAtom (SInt 50)); ("date_max", JAtom (SInt 2021));
       ("revenue_max", JAtom (SFloat FPosInf)); ("date_min", JAtom (SBool true))]
    = Ok d'.
Proof.
  eexists. apply filter_income_total_on_numbers.
  - intros k v Hin. simpl in Hin.
    repeat (destruct Hin as [Hin|Hin]; [inversion Hin; subst; discriminate|]).
    contradiction.
  - intros r [<-|[<-|[]]]; vm_compute; discriminate.
  - intros r b v Hr Hin Hb. simpl in Hin.
    destruct Hin as [Hin|[Hin|[Hin|[Hin|[]]]]]; inversion Hin as [[Hk Hv]];
      apply min_key_base in Hk; destruct Hk as [Hk ->];
      vm_compute in Hk; try discriminate Hk.
    + destruct Hr as [<-|[<-|[]]]; vm_compute; discriminate.
    + exfalso. apply Hb. reflexivity.
Defined.

Lemma bound_not_num_raises (lo : json) (v : scalar) (x : float) :
  json_num lo = None -> to_num v = Some x ->
  bound_le_val lo v = Raise TypeError.
Proof.
  intros Hlo Hv. destruct lo as [a| |]; simpl in *; [|reflexivity..].
  unfold py_le, py_cmp.
  destruct a, v; simpl in *; try discriminate; reflexivity.
Qed.

(** X5: a lower bound that is not a number raises on numeric data.  With
    one range filter on a field other than [date] whose [_min] is a string,
    [None], a list or an object, and whose [_max] is not [None],
    [filter_income] raises [TypeError] as soon as the first record's field
    is a number or missing. *)
Theorem filter_income_text_bound_raises (base : string) (lo hi : json)
    (f : dict json) (r : record) (rest : list record) :
  base <> "date" -> json_num lo = None -> is_none hi = false ->
  f = [(base ++ "_min", lo); (base ++ "_max", hi)] \/
  f = [(base ++ "_max", hi); (base ++ "_min", lo)] ->
  field_num base r <> None ->
  filter_income (r :: rest) f = Raise TypeError.
Proof.
  intros Hbase Hlo Hhi Hf Hr.
  rewrite (filter_income_lone (r :: rest) f (base ++ "_min", lo)
             (base ++ "_max", hi) (num_cond base lo hi) Hf).
  - cbn [list_comp]. unfold num_cond at 1, py_between.
    destruct (field_num base r) as [x|] eqn:Hx; [|contradiction].
    unfold field_num in Hx. unfold dict_get.
    destruct (dict_find r base) as [v|].
    + rewrite (bound_not_num_raises lo v x Hlo Hx). reflexivity.
    + rewrite (bound_not_num_raises lo (SFloat FPosInf) FPosInf Hlo eq_refl).
      reflexivity.
  - unfold item_cond.
    rewrite (str_endswith_app base "_min" "_min") by reflexivity. simpl.
    change 4%nat with (String.length "_min"). rewrite str_drop_last_app.
    unfold dict_get. rewrite (lone_find_max f base lo hi Hf), Hhi.
    destruct (String.eqb_spec base "date"); [contradiction | reflexivity].
  - exact (item_cond_max f base hi).
Qed.

Lemma filter_income_text_bound_raises_witness :
  filter_income
    [[("revenue", SInt 100)]; [("revenue", SInt 200)]]
    [("revenue_min", JAtom (SStr "150")); ("revenue_max", JAtom (SStr "300"))]
  = Raise TypeError.
Proof.
  apply (filter_income_text_bound_raises "revenue"
           (JAtom (SStr "150")) (JAtom (SStr "300"))).
  - discriminate.
  - reflexivity.
  - reflexivity.
  - left. reflexivity.
  - vm_compute. discriminate.
Defined.

Lemma num_le_trans (a x b : float) :
  num_le a x = true -> num_le x b = true -> num_le a b = true.
Proof.
  unfold num_le.
  destruct a as [p| | |], x as [q| | |], b as [r| | |]; simpl;
    try congruence.
  intros H1 H2.
  assert (Hpq : (p <= q)%Q)
    by (apply Qle_alt; intros E; rewrite E in H1; discriminate).
  assert (Hqr : (q <= r)%Q)
    by (apply Qle_alt; intros E; rewrite E in H2; discriminate).
  pose proof (proj1 (Qle_alt _ _) (Qle_trans _ _ _ Hpq Hqr)) as Hpr.
  destruct (p ?= r)%Q eqn:E; congruence.
Qed.

(** X6: a range whose bounds are inverted keeps nothing.  When the numbers
    of [b_min] and [b_max] satisfy [min > max], for [date] as for any other
    field, every list [filter_income] returns is empty. *)
Theorem filter_income_inverted_range (base : string) (lo hi : scalar)
    (a b : float) (d d' : list record) (f : dict json) :
  to_num lo = Some a -> to_num hi = Some b -> num_le a b = false ->
  In (base ++ "_min", JAtom lo) f ->
  dict_find f (base ++ "_max") = Some (JAtom hi) ->
  filter_income d f = Ok d' -> d' = [].
Proof.
  intros Ha Hb Hab Hin Hmax Hok.
  destruct d' as [|r d'']; [reflexivity | exfalso].
  assert (Hr : In r (filter (passes f) d)).
  { rewrite <- (filter_income_ok d _ f Hok). left. reflexivity. }
  apply filter_In in Hr. destruct Hr as [_ Hp].
  destruct (String.eqb_spec base "date") as [->|Hne].
  - assert (Hc : date_cond "date" (JAtom lo) (JAtom hi) r = Ok true).
    { apply (passes_item f ("date_min", JAtom lo) _ r Hin); [|exact Hp].
      apply item_cond_date; [exact Hmax | exact (is_none_num hi b Hb)]. }
    apply ok_true_iff in Hc.
    rewrite (date_cond_ok_true lo hi a b r Ha Hb) in Hc.
    unfold year_in in Hc. destruct (year_of r) as [y|]; [|discriminate].
    apply andb_prop in Hc. destruct Hc as [H1 H2].
    rewrite (num_le_trans _ _ _ H1 H2) in Hab. discriminate.
  - assert (Hc : num_cond base (JAtom lo) (JAtom hi) r = Ok true).
    { apply (passes_item f (base ++ "_min", JAtom lo) _ r Hin); [|exact Hp].
      exact (item_cond_num f base (JAtom lo) hi b Hne Hb Hmax). }
    apply ok_true_iff in Hc.
    rewrite (num_cond_ok_true base lo hi a b r Ha Hb) in Hc.
    unfold num_in in Hc. destruct (field_num base r) as [x|]; [|discriminate].
    apply andb_prop in Hc. destruct Hc as [H1 H2].
    rewrite (num_le_trans _ _ _ H1 H2) in Hab. discriminate.
Qed.

Lemma filter_income_inverted_range_witness :
  filter_income
    [[("revenue", SInt 100); ("date", SStr "2020-09-26")];
     [("date", SStr "2021-09-25")]]
    [("date_min", JAtom (SInt 2021)); ("date_max", JAtom (SInt 2020))]
  = Ok [].
Proof.
  assert (H : exists d',
             filter_income
               [[("revenue", SInt 100); ("date", SStr "2020-09-26")];
                [("date", SStr "2021-09-25")]]
               [("date_min", JAtom (SInt 2021)); ("date_max", JAtom (SInt 2020))]
             = Ok d') by (eexists; reflexivity).
  destruct H as [d' Hd']. rewrite Hd'. f_equal.
  apply (filter_income_inverted_range "date" (SInt 2021) (SInt 2020)
           (of_int 2021) (of_int 2020)
           [[("revenue", SInt 100); ("date", SStr "2020-09-26")];
            [("date", SStr "2021-09-25")]]
           d'
           [("date_min", JAtom (SInt 2021)); ("date_max", JAtom (SInt 2020))]
           eq_refl eq_refl eq_refl (or_introl eq_refl) eq_refl Hd').
Defined.

(* ===================================================================== *)
(** ** More on the sort engine *)
(* ===================================================================== *)

Lemma string_le_trans (x y z : string) :
  String.compare y x <> Lt -> String.compare z y <> Lt ->
  String.compare z x <> Lt.
Proof.
  intros Hyx Hzy Hzx.
  destruct (String.compare z y) eqn:E; [| contradiction |].
  - apply String.compare_eq_iff in E. subst z. contradiction.
  - apply Hyx. apply (string_compare_lt_trans y z x); [|exact Hzx].
    rewrite String.compare_antisym, E. reflexivity.
Qed.

Lemma float_le_trans (x y z : float) :
  y <> FNaN ->
  float_cmp y x <> Some Lt -> float_cmp z y <> Some Lt ->
  float_cmp z x <> Some Lt.
Proof.
  destruct x as [p| | |], y as [q| | |], z as [r| | |]; simpl;
    try congruence.
  intros _ H1 H2 E.
  assert (Hrp : (r < p)%Q) by (apply Qlt_alt; congruence).
  assert (Hpq : (p <= q)%Q).
  { apply Qnot_lt_le. intros C. apply H1. f_equal. apply Qlt_alt, C. }
  assert (Hqr : (q <= r)%Q).
  { apply Qnot_lt_le. intros C. apply H2. f_equal. apply Qlt_alt, C. }
  apply (Qle_not_lt _ _ (Qle_trans _ _ _ Hpq Hqr)), Hrp.
Qed.

Lemma key_le_iff (a b : scalar) :
  key_le a b <-> exists c, py_cmp b a = Ok c /\ c <> Some Lt.
Proof.
  unfold key_le, py_lt. split.
  - destruct (py_cmp b a) as [c|e]; simpl; [|discriminate].
    intros H. exists c. split; [reflexivity|].
    destruct c as [[]|]; congruence.
  - intros [c [-> Hc]]. simpl. destruct c as [[]|]; congruence.
Qed.

(** The order of the keys is transitive through a key that is not a NaN. *)
Lemma key_le_trans (x y z : scalar) :
  is_nan y = false ->
  key_le x y -> key_le y z -> key_le x z.
Proof.
  rewrite !key_le_iff. intros Hy0 [c1 [H1 N1]] [c2 [H2 N2]].
  destruct (py_cmp_ok _ _ _ H1) as [(b & a & Hy & Hx & E1)|(t & s & -> & -> & E1)];
    destruct (py_cmp_ok _ _ _ H2) as [(c & b' & Hz & Hy' & E2)|(u & t' & -> & Ey & E2)].
  - rewrite Hy in Hy'. inversion Hy'; subst b'.
    exists (float_cmp c a). split; [exact (py_cmp_num z x c a Hz Hx)|].
    apply (float_le_trans a b c); [|congruence..].
    intros ->. destruct y as [| | |[]|]; simpl in Hy, Hy0;
      try discriminate; destruct b; discriminate.
  - subst y. discriminate.
  - discriminate.
  - inversion Ey; subst t'.
    exists (Some (String.compare u s)). split; [reflexivity|].
    intros E. apply (string_le_trans s t u); congruence.
Qed.

Lemma comparable_iff (a b : scalar) :
  comparable a b = true <-> exists c, py_cmp a b = Ok c.
Proof.
  unfold comparable, py_lt. destruct (py_cmp a b) as [c|e]; simpl; split;
    try discriminate; eauto.
  intros [c H]. discriminate.
Qed.

Lemma comparable_sym (a b : scalar) :
  comparable a b = true -> comparable b a = true.
Proof.
  rewrite !comparable_iff. intros [c H].
  destruct (py_cmp_ok _ _ _ H) as [(x & y & Ha & Hb & _)|(s & t & -> & -> & _)].
  - rewrite (py_cmp_num b a y x Hb Ha). eauto.
  - cbv [py_cmp to_num]. eauto.
Qed.

Lemma key_le_of_not_lt (a b : scalar) :
  comparable b a = true -> lt_key b a = false -> key_le a b.
Proof.
  unfold comparable, lt_key, key_le.
  destruct (py_lt b a) as [[|]|e]; congruence.
Qed.

Lemma key_le_of_lt (a b : scalar) : lt_key a b = true -> key_le a b.
Proof.
  intros H. apply key_le_of_not_lt; [|exact (lt_key_asym a b H)].
  apply comparable_sym. unfold comparable. unfold lt_key in H.
  destruct (py_lt a b); [reflexivity | discriminate].
Qed.

Lemma key_le_not_lt (a b : scalar) : key_le a b -> lt_key b a = false.
Proof. unfold key_le, lt_key. intros ->. reflexivity. Qed.

Section SortedOrder.
Context {A : Type}.
Implicit Types (x : scalar * A) (l : list (scalar * A)).

Lemma nan_free_in l x : nan_free l = true -> In x l -> is_nan (fst x) = false.
Proof.
  unfold nan_free. intros H Hin. apply negb_true_iff in H.
  destruct (is_nan (fst x)) eqn:E; [|reflexivity].
  rewrite <- H. symmetry. apply existsb_exists. exists x. split; assumption.
Qed.

Lemma insert_key_sorted_le x l :
  nan_free l = true ->
  StronglySorted pair_le l ->
  Forall (fun q => comparable (fst x) (fst q) = true) l ->
  StronglySorted pair_le (insert_key x l).
Proof.
  induction l as [|y l IH]; intros Hn Hs Hc; cbn [insert_key].
  - constructor; constructor.
  - apply StronglySorted_inv in Hs. destruct Hs as [Hs Hy].
    inversion Hc as [|? ? Hxy Hc']; subst.
    assert (Hn' : nan_free l = true).
    { unfold nan_free in *. cbn [existsb] in Hn.
      apply negb_true_iff, orb_false_elim in Hn.
      apply negb_true_iff, Hn. }
    destruct (lt_key (fst y) (fst x)) eqn:Hlt.
    + constructor; [apply IH; assumption|].
      apply (Permutation_Forall (Permutation_sym (insert_key_perm x l))).
      constructor; [exact (key_le_of_lt _ _ Hlt) | exact Hy].
    + assert (Hx : pair_le x y).
      { apply key_le_of_not_lt; [apply comparable_sym; exact Hxy | exact Hlt]. }
      constructor; [constructor; assumption|].
      constructor; [exact Hx|].
      rewrite Forall_forall in Hy |- *. intros z Hz.
      refine (key_le_trans _ _ _ _ Hx (Hy z Hz)).
      apply (nan_free_in (y :: l) y Hn). left. reflexivity.
Qed.

Lemma stable_sort_sorted_le l :
  nan_free l = true ->
  (forall p q, In p l -> In q l -> comparable (fst p) (fst q) = true) ->
  StronglySorted pair_le (stable_sort l).
Proof.
  induction l as [|x l IH]; intros Hn Hc; cbn [stable_sort]; [constructor|].
  assert (Hn' : nan_free l = true).
  { unfold nan_free in *. cbn [existsb] in Hn.
    apply negb_true_iff, orb_false_elim in Hn.
    apply negb_true_iff, Hn. }
  apply insert_key_sorted_le.
  - rewrite <- Hn'. apply nan_free_perm, stable_sort_perm.
  - apply IH; [exact Hn'|]. intros p q Hp Hq. apply Hc; right; assumption.
  - apply Forall_forall. intros q Hq.
    apply (Permutation_in _ (stable_sort_perm l)) in Hq.
    apply Hc; [left; reflexivity | right; exact Hq].
Qed.

Lemma sorted_snoc (R : scalar * A -> scalar * A -> Prop) l x :
  StronglySorted R l -> Forall (fun y => R y x) l ->
  StronglySorted R (l ++ [x])%list.
Proof.
  induction 1 as [|y l Hs IH Hy]; intros Hx; simpl.
  - constructor; constructor.
  - inversion Hx as [|? ? Hyx Hx']; subst.
    constructor; [apply IH; assumption|].
    apply Forall_app. split; [assumption | constructor; [assumption|constructor]].
Qed.

Lemma sorted_rev l :
  StronglySorted pair_le l -> StronglySorted pair_ge (rev l).
Proof.
  induction 1 as [|x l Hs IH Hx]; simpl; [constructor|].
  apply sorted_snoc; [exact IH|]. apply Forall_rev. exact Hx.
Qed.

Lemma all_pairs_sorted (R : scalar * A -> scalar * A -> Prop) l :
  (forall p q, In p l -> In q l -> R p q) -> StronglySorted R l.
Proof.
  induction l as [|x l IH]; intros H; constructor.
  - apply IH. intros p q Hp Hq. apply H; right; assumption.
  - apply Forall_forall. intros q Hq.
    apply H; [left; reflexivity | right; exact Hq].
Qed.


(** The pairs [py_sorted] sorts, when it returns and no key is a NaN, are
    in key order. *)
Lemma sorted_pairs_sorted (keys : list scalar) (data : list A)
    (reverse : bool) :
  nan_free (combine keys data) = true ->
  (List.length keys <? 2)%nat || mutually_orderable keys = true ->
  StronglySorted (if reverse then pair_ge else pair_le)
                 (sorted_pairs keys data reverse).
Proof.
  intros Hn Hc.
  assert (Hs : forall l, Permutation l (combine keys data) ->
                         StronglySorted pair_le (stable_sort l)).
  { intros l Hp.
    destruct (mutually_orderable keys) eqn:Ho.
    - apply stable_sort_sorted_le.
      + rewrite <- Hn. apply nan_free_perm, Hp.
      + intros [k1 a1] [k2 a2] H1 H2.
        apply (Permutation_in _ Hp), in_combine_l in H1.
        apply (Permutation_in _ Hp), in_combine_l in H2.
        rewrite mutually_orderable_iff in Ho. apply Ho; assumption.
    - rewrite orb_false_r in Hc. apply Nat.ltb_lt in Hc.
      assert (Hlen : (List.length l < 2)%nat).
      { rewrite (Permutation_length Hp), length_combine. lia. }
      destruct l as [|p [|q l]]; simpl in *;
        [constructor | repeat constructor | lia]. }
  rewrite (sorted_pairs_stable _ _ _ Hn). destruct reverse.
  - apply sorted_rev, Hs. symmetry. apply Permutation_rev.
  - apply Hs. reflexivity.
Qed.

End SortedOrder.

Lemma sorted_map_fst {A : Type} (R : scalar -> scalar -> Prop)
    (l : list (scalar * A)) :
  StronglySorted (fun p q => R (fst p) (fst q)) l ->
  StronglySorted R (map fst l).
Proof.
  induction 1 as [|x l Hs IH Hx]; simpl; constructor; [exact IH|].
  apply Forall_map. exact Hx.
Qed.

Lemma sort_keys_pairs (field : string) (l : list (scalar * record)) :
  Forall (fun p => sort_key field (snd p) = Ok (fst p)) l ->
  sort_keys field (map snd l) = Ok (map fst l).
Proof.
  unfold sort_keys. induction 1 as [|p l Hp _ IH]; simpl; [reflexivity|].
  rewrite Hp, IH. reflexivity.
Qed.

Lemma sort_keys_pairs_ok (field : string) (data : list record)
    (keys : list scalar) (reverse : bool) :
  sort_keys field data = Ok keys ->
  Forall (fun p => sort_key field (snd p) = Ok (fst p))
         (sorted_pairs keys data reverse).
Proof.
  intros Hk. apply list_map_r_ok in Hk.
  exact (Permutation_Forall
           (Permutation_sym (sorted_pairs_perm keys data reverse))
           (combine_keys field data keys Hk)).
Qed.

Lemma sort_income_perm (data out : list record) (field : string)
    (ascending : bool) :
  sort_income data field ascending = Ok out -> Permutation out data.
Proof.
  intros H. apply sort_income_ok in H. destruct H as [keys [Hk [_ ->]]].
  rewrite <- (map_snd_combine keys data) at 2
    by (apply list_map_r_ok in Hk; symmetry;
        exact (Forall2_length_eq _ _ _ Hk)).
  apply Permutation_map, sorted_pairs_perm.
Qed.

Lemma sort_income_order (data out : list record) (field : string)
    (ascending : bool) :
  no_nan_key field data ->
  sort_income data field ascending = Ok out ->
  exists keys, sort_keys field out = Ok keys /\ keys_sorted ascending keys.
Proof.
  intros Hn H. apply sort_income_ok in H. destruct H as [keys [Hk [Hc ->]]].
  exists (map fst (sorted_pairs keys data (negb ascending))). split.
  - apply sort_keys_pairs, sort_keys_pairs_ok, Hk.
  - pose proof (sorted_pairs_sorted keys data (negb ascending)
                  (no_nan_combine field data keys Hk Hn) Hc) as Hs.
    unfold keys_sorted. destruct ascending; cbn [negb] in Hs;
      apply sorted_map_fst; exact Hs.
Qed.

(** X7: the result of [sort_income] is in key order when no sort key is a
    NaN.  When it then returns, the sort keys of the result are defined
    and, taken in order, no later key is less than an earlier one
    (ascending), or greater than an earlier one (descending). *)
Theorem sort_income_sorted (data out : list record) (field : string)
    (ascending : bool) :
  no_nan_key field data ->
  sort_income data field ascending = Ok out ->
  exists keys, sort_keys field out = Ok keys /\ keys_sorted ascending keys.
Proof. apply sort_income_order. Qed.

Lemma sort_income_sorted_witness :
  exists keys,
    sort_keys "date"
      [[("date", SStr "2021-09-25")]; [("date", SStr "2020-09-26")];
       [("date", SStr "2019-09-28")]] = Ok keys
    /\ keys_sorted false keys.
Proof.
  apply (sort_income_sorted
           [[("date", SStr "2020-09-26")]; [("date", SStr "2021-09-25")];
            [("date", SStr "2019-09-28")]]
           _ "date" false).
  - apply no_nan_key_check. reflexivity.
  - reflexivity.
Defined.








Lemma sort_keys_length (field : string) (data : list record)
    (keys : list scalar) :
  sort_keys field data = Ok keys -> List.length keys = List.length data.
Proof.
  intros Hk. apply list_map_r_ok in Hk. symmetry.
  exact (Forall2_length_eq _ _ _ Hk).
Qed.



Lemma sort_income_ties (data : list record) (keys : list scalar)
    (field : string) (ascending : bool) :
  sort_keys field data = Ok keys ->
  (forall a b, In a keys -> In b keys -> key_le a b) ->
  sort_income data field ascending = Ok data.
Proof.
  intros Hk Hties.
  assert (Hlen : List.length keys = List.length data)
    by exact (sort_keys_length field data keys Hk).
  assert (Hc : (List.length keys <? 2)%nat || mutually_orderable keys = true).
  { apply orb_true_iff. right. apply mutually_orderable_iff.
    intros a b Ha Hb. apply comparable_iff.
    destruct (proj1 (key_le_iff b a) (Hties b a Hb Ha)) as [c [Hcmp _]].
    eauto. }
  rewrite (sort_income_run data keys field ascending Hk Hc).
  f_equal. rewrite <- (map_snd_combine keys data Hlen) at 2. f_equal.
  assert (Hs : forall l, Permutation l (combine keys data) ->
                         sort_pairs l = l).
  { intros l Hp. apply sort_pairs_id, StronglySorted_Sorted, all_pairs_sorted.
    intros [k1 a1] [k2 a2] H1 H2.
    apply (Permutation_in _ Hp), in_combine_l in H1.
    apply (Permutation_in _ Hp), in_combine_l in H2.
    apply key_le_not_lt, Hties; assumption. }
  unfold sorted_pairs. destruct ascending; cbn [negb].
  - apply Hs. reflexivity.
  - rewrite Hs by (symmetry; apply Permutation_rev). apply rev_involutive.
Qed.

Lemma sort_keys_same_year (data : list record) (y : Z) :
  (forall r, In r data ->
             exists s, dict_find r "date" = Some (SStr s) /\
                       int_literal (str_take 4 s) = Some y) ->
  sort_keys "date" data = Ok (map (fun _ => SInt y) data).
Proof.
  unfold sort_keys. induction data as [|r data IH]; intros H;
    [reflexivity|].
  cbn [list_map_r map].
  destruct (H r (or_introl eq_refl)) as [s [Hd Hy]].
  unfold sort_key at 1, dict_item. rewrite Hd.
  cbn [bind String.eqb Ascii.eqb Bool.eqb is_str andb py_slice4].
  unfold py_int. rewrite Hy. cbn [bind].
  rewrite IH by (intros r' Hr'; apply H; right; exact Hr').
  reflexivity.
Qed.

(** X9: sorting by [date] compares years only.  When the [date] of every
    record is a string of the same year, [sort_income] by [date] returns
    the data in its input order, in both directions, whatever the months
    and days. *)
Theorem sort_by_date_ignores_month_and_day (data : list record) (y : Z)
    (ascending : bool) :
  (forall r, In r data ->
             exists s, dict_find r "date" = Some (SStr s) /\
                       int_literal (str_take 4 s) = Some y) ->
  sort_income data "date" ascending = Ok data.
Proof.
  intros H.
  apply (sort_income_ties data _ "date" ascending
           (sort_keys_same_year data y H)).
  intros a b Ha Hb. apply in_map_iff in Ha, Hb.
  destruct Ha as [_ [<- _]]. destruct Hb as [_ [<- _]].
  unfold key_le, py_lt, py_cmp. cbn [to_num bind float_cmp].
  rewrite Qcompare_inject_Z, Z.compare_refl. reflexivity.
Qed.

Lemma sort_by_date_ignores_month_and_day_witness :
  sort_income
    [[("date", SStr "2020-12-31")]; [("date", SStr "2020-03-31")];
     [("date", SStr "2020-06-30")]] "date" true
  = Ok [[("date", SStr "2020-12-31")]; [("date", SStr "2020-03-31")];
        [("date", SStr "2020-06-30")]].
Proof.
  apply (sort_by_date_ignores_month_and_day _ 2020).
  intros r [<-|[<-|[<-|[]]]]; eexists; split; reflexivity.
Defined.

(** X10: keys that are not ordered with each other cannot be sorted.  When
    the data has two records or more and the [<] of two of its sort keys
    raises (a number and a string, or [None] and anything), [sort_income]
    raises [TypeError] in both directions. *)
Theorem sort_income_mixed_keys (data : list record) (keys : list scalar)
    (field : string) (ascending : bool) (a b : scalar) :
  sort_keys field data = Ok keys -> (2 <= List.length data)%nat ->
  In a keys -> In b keys -> comparable a b = false ->
  sort_income data field ascending = Raise TypeError.
Proof.
  intros Hk Hlen Ha Hb Hab.
  pose proof (sort_keys_length field data keys Hk) as Hkl.
  unfold sort_income, sort_keys in *. destruct data as [|first rest];
    [simpl in Hlen; lia|].
  assert (Hmem : dict_mem first field = true).
  { apply list_map_r_ok in Hk. inversion Hk; subst.
    eapply sort_key_mem; eassumption. }
  rewrite Hmem. cbn [negb]. unfold py_sorted. rewrite Hk. cbn [bind].
  replace (List.length keys <? 2)%nat with false
    by (symmetry; apply Nat.ltb_ge; lia).
  destruct (mutually_orderable keys) eqn:Ho; [|reflexivity].
  rewrite mutually_orderable_iff in Ho. rewrite (Ho a b Ha Hb) in Hab.
  discriminate.
Qed.

Lemma sort_income_mixed_keys_witness :
  sort_income
    [[("eps", SFloat (FFin (5 # 2)))]; [("eps", SStr "n/a")];
     [("eps", SInt 3)]] "eps" true
  = Raise TypeError.
Proof.
  apply (sort_income_mixed_keys _
           [SFloat (FFin (5 # 2)); SStr "n/a"; SInt 3] "eps" true
           (SInt 3) (SStr "n/a")).
  - reflexivity.
  - simpl. lia.
  - right. right. left. reflexivity.
  - right. left. reflexivity.
  - reflexivity.
Defined.

(* ===================================================================== *)
(** ** Filtering and sorting together *)
(* ===================================================================== *)

Lemma filter_perm {A : Type} (p : A -> bool) (l m : list A) :
  Permutation l m -> Permutation (filter p l) (filter p m).
Proof.
  induction 1 as [|x l m _ IH|x y l|l m n _ IH1 _ IH2]; simpl.
  - constructor.
  - destruct (p x); [constructor|]; exact IH.
  - destruct (p x), (p y); try reflexivity. apply perm_swap.
  - exact (Permutation_trans IH1 IH2).
Qed.

(** The loop returns on a rearrangement of a list on which it returns. *)
Lemma filter_loop_perm (f items : dict json) (d s d' : list record) :
  filter_loop f items d = Ok d' -> Permutation d s ->
  filter_loop f items s = Ok (filter (passes_items f items) s).
Proof.
  revert d s d'. induction items as [|item items IH]; simpl;
    intros d s d' H Hp.
  - rewrite filter_all; reflexivity.
  - apply bind_ok in H. destruct H as [d1 [H1 H2]].
    rewrite filter_step_cond in H1 |- *.
    destruct (item_cond f item) as [c|] eqn:Hc.
    + apply list_comp_ok in H1. destruct H1 as [-> Hdef].
      rewrite list_comp_total
        by (intros r Hr; apply Hdef;
            exact (Permutation_in _ (Permutation_sym Hp) Hr)).
      cbn [bind].
      rewrite (IH _ (filter (fun x => ok_true (c x)) s) _ H2)
        by (apply filter_perm; exact Hp).
      rewrite filter_filter. f_equal. apply filter_ext. intros r.
      unfold passes_items. simpl. rewrite Hc. reflexivity.
    + inversion H1; subst d1. cbn [bind]. rewrite (IH _ s _ H2 Hp).
      f_equal. apply filter_ext. intros r.
      unfold passes_items. simpl. rewrite Hc. reflexivity.
Qed.

Section SortFilter.
Context {A : Type}.
Variable keep : scalar * A -> bool.
Implicit Types (x : scalar * A) (l : list (scalar * A)).

Lemma insert_key_head x l :
  Forall (pair_le x) l -> insert_key x l = x :: l.
Proof.
  destruct l as [|y l]; [reflexivity|]. intros H. cbn [insert_key].
  inversion H as [|? ? Hxy _]; subst.
  rewrite (key_le_not_lt _ _ Hxy). reflexivity.
Qed.

Lemma insert_key_filter x l :
  nan_free l = true ->
  StronglySorted pair_le l ->
  Forall (fun q => comparable (fst x) (fst q) = true) l ->
  filter keep (insert_key x l)
  = if keep x then insert_key x (filter keep l) else filter keep l.
Proof.
  induction l as [|y l IH]; intros Hn Hs Hc.
  - simpl. destruct (keep x); reflexivity.
  - apply StronglySorted_inv in Hs. destruct Hs as [Hs Hy].
    inversion Hc as [|? ? Hxy Hc']; subst.
    assert (Hn' : nan_free l = true).
    { unfold nan_free in *. cbn [existsb] in Hn.
      apply negb_true_iff, orb_false_elim in Hn.
      apply negb_true_iff, Hn. }
    cbn [insert_key]. destruct (lt_key (fst y) (fst x)) eqn:Hlt.
    + cbn [filter]. rewrite (IH Hn' Hs Hc').
      destruct (keep x), (keep y); try reflexivity.
      cbn [insert_key]. rewrite Hlt. reflexivity.
    + assert (Hx : pair_le x y).
      { apply key_le_of_not_lt; [apply comparable_sym; exact Hxy | exact Hlt]. }
      assert (Hall : Forall (pair_le x) (filter keep (y :: l))).
      { apply Forall_forall. intros z Hz. apply filter_In in Hz.
        destruct Hz as [[<-|Hz] _]; [exact Hx|].
        rewrite Forall_forall in Hy.
        refine (key_le_trans _ _ _ _ Hx (Hy z Hz)).
        apply (nan_free_in (y :: l) y Hn). left. reflexivity. }
      change (filter keep (x :: y :: l))
        with (if keep x then x :: filter keep (y :: l)
              else filter keep (y :: l)).
      destruct (keep x); [|reflexivity].
      symmetry. apply insert_key_head. exact Hall.
Qed.

(** On mutually ordered keys none of which is a NaN, leaving items out
    commutes with the sort. *)
Lemma stable_sort_filter l :
  nan_free l = true ->
  (forall p q, In p l -> In q l -> comparable (fst p) (fst q) = true) ->
  filter keep (stable_sort l) = stable_sort (filter keep l).
Proof.
  induction l as [|x l IH]; intros Hn Hc; [reflexivity|].
  assert (Hc' : forall p q, In p l -> In q l ->
                            comparable (fst p) (fst q) = true)
    by (intros p q Hp Hq; apply Hc; right; assumption).
  assert (Hn' : nan_free l = true).
  { unfold nan_free in *. cbn [existsb] in Hn.
    apply negb_true_iff, orb_false_elim in Hn.
    apply negb_true_iff, Hn. }
  cbn [stable_sort filter]. rewrite insert_key_filter.
  - rewrite (IH Hn' Hc'). destruct (keep x); reflexivity.
  - rewrite <- Hn'. apply nan_free_perm, stable_sort_perm.
  - apply stable_sort_sorted_le; [exact Hn' | exact Hc'].
  - apply Forall_forall. intros q Hq.
    apply (Permutation_in _ (stable_sort_perm l)) in Hq.
    apply Hc; [left; reflexivity | right; exact Hq].
Qed.

Lemma stable_sort_filter_short l :
  (List.length l < 2)%nat ->
  filter keep (stable_sort l) = stable_sort (filter keep l).
Proof.
  destruct l as [|x [|y l]]; simpl; intros H; [reflexivity| |lia].
  destruct (keep x); reflexivity.
Qed.
End SortFilter.

Lemma sorted_pairs_filter {A : Type} (keep : scalar * A -> bool)
    (keys : list scalar) (data : list A) (reverse : bool) :
  nan_free (combine keys data) = true ->
  (List.length keys <? 2)%nat || mutually_orderable keys = true ->
  filter keep (sorted_pairs keys data reverse)
  = let kv := filter keep (combine keys data) in
    if reverse then rev (stable_sort (rev kv)) else stable_sort kv.
Proof.
  intros Hn Hc.
  assert (Hs : forall l, Permutation l (combine keys data) ->
                         filter keep (stable_sort l)
                         = stable_sort (filter keep l)).
  { intros l Hp. destruct (mutually_orderable keys) eqn:Ho.
    - apply stable_sort_filter.
      + rewrite <- Hn. apply nan_free_perm, Hp.
      + intros [k1 a1] [k2 a2] H1 H2.
        apply (Permutation_in _ Hp), in_combine_l in H1.
        apply (Permutation_in _ Hp), in_combine_l in H2.
        rewrite mutually_orderable_iff in Ho. apply Ho; assumption.
    - rewrite orb_false_r in Hc. apply Nat.ltb_lt in Hc.
      apply stable_sort_filter_short.
      rewrite (Permutation_length Hp), length_combine. lia. }
  rewrite (sorted_pairs_stable _ _ _ Hn). cbv zeta. destruct reverse.
  - rewrite filter_rev, Hs by (symmetry; apply Permutation_rev).
    rewrite filter_rev. reflexivity.
  - apply Hs. reflexivity.
Qed.

(** The keys and pairs of the records a predicate keeps. *)
Lemma sort_keys_filter (field : string) (keep : record -> bool)
    (data : list record) (keys : list scalar) :
  sort_keys field data = Ok keys ->
  exists keys',
    sort_keys field (filter keep data) = Ok keys' /\
    filter (fun p => keep (snd p)) (combine keys data)
    = combine keys' (filter keep data) /\
    (forall k, In k keys' -> In k keys) /\
    (List.length keys' <= List.length keys)%nat.
Proof.
  unfold sort_keys. intros Hk. apply list_map_r_ok in Hk.
  induction Hk as [|x k data keys Hxk _ IH].
  - exists []. repeat split; auto.
  - destruct IH as [keys' [H1 [H2 [H3 H4]]]]. cbn [filter combine snd].
    destruct (keep x).
    + exists (k :: keys'). cbn [list_map_r]. rewrite Hxk, H1. cbn [bind].
      repeat split.
      * cbn [combine]. rewrite H2. reflexivity.
      * intros k0 [<-|Hk0]; [left; reflexivity | right; auto].
      * simpl. lia.
    + exists keys'. repeat split; auto.
      * intros k0 Hk0. right. auto.
      * simpl. lia.
Qed.

(** X11: the order of the two engines does not change a result when no
    sort key is a NaN.  When filtering the data returns and sorting the
    data returns, sorting the filtered data and filtering the sorted data
    both return, and return the same list. *)
Theorem filter_and_sort_commute (d d1 s : list record) (f : dict json)
    (field : string) (ascending : bool) :
  no_nan_key field d ->
  filter_income d f = Ok d1 -> sort_income d field ascending = Ok s ->
  exists out,
    sort_income d1 field ascending = Ok out /\ filter_income s f = Ok out.
Proof.
  intros Hnan Hf Hs.
  pose proof (filter_income_ok d d1 f Hf) as Hd1.
  destruct (sort_income_ok d s field ascending Hs) as [keys [Hk [Hc Hs']]].
  destruct (sort_keys_filter field (passes f) d keys Hk)
    as [keys' [Hk' [Hkv [Hincl Hlen]]]].
  rewrite <- Hd1 in Hk', Hkv.
  pose proof (no_nan_keys field d keys Hk Hnan) as Hfree.
  assert (Hfree' : nan_free (combine keys' d1) = true).
  { apply nan_free_combine. intros k Hin. apply Hfree, Hincl, Hin. }
  assert (Hc' : (List.length keys' <? 2)%nat || mutually_orderable keys' = true).
  { apply orb_true_iff. apply orb_true_iff in Hc. destruct Hc as [Hc|Hc].
    - left. apply Nat.ltb_lt. apply Nat.ltb_lt in Hc. lia.
    - right. rewrite mutually_orderable_iff in Hc |- *.
      intros a b Ha Hb. apply Hc; apply Hincl; assumption. }
  exists (map snd (sorted_pairs keys' d1 (negb ascending))). split.
  - exact (sort_income_run d1 keys' field ascending Hk' Hc').
  - assert (Hperm : Permutation d s).
    { rewrite Hs'. rewrite <- (map_snd_combine keys d) at 1
        by exact (sort_keys_length field d keys Hk).
      apply Permutation_map. symmetry. apply sorted_pairs_perm. }
    unfold filter_income in *.
    rewrite (filter_loop_perm f f d s d1 Hf Hperm).
    f_equal. fold (passes f). rewrite Hs'.
    assert (Hmap : forall l : list (scalar * record),
               filter (passes f) (map snd l)
               = map snd (filter (fun p => passes f (snd p)) l)).
    { induction l as [|p l IH]; simpl; [reflexivity|].
      destruct (passes f (snd p)); simpl; rewrite IH; reflexivity. }
    rewrite Hmap, (sorted_pairs_filter _ keys d (negb ascending)
                     (nan_free_combine keys d Hfree) Hc).
    cbv zeta. rewrite Hkv, (sorted_pairs_stable _ _ _ Hfree').
    reflexivity.
Qed.

Lemma filter_and_sort_commute_witness :
  exists out,
    sort_income
      [[("revenue", SInt 300); ("date", SStr "2019-09-28")];
       [("revenue", SInt 200); ("date", SStr "2021-09-25")]]
      "revenue" true
    = Ok out /\
    filter_income
      [[("revenue", SInt 100); ("date", SStr "2020-09-26")];
       [("revenue", SInt 200); ("date", SStr "2021-09-25")];
       [("revenue", SInt 300); ("date", SStr "2019-09-28")]]
      [("revenue_min", JAtom (SInt 150)); ("revenue_max", JAtom (SInt 300))]
    = Ok out.
Proof.
  apply (filter_and_sort_commute
           [[("revenue", SInt 300); ("date", SStr "2019-09-28")];
            [("revenue", SInt 100); ("date", SStr "2020-09-26")];
            [("revenue", SInt 200); ("date", SStr "2021-09-25")]]);
    [apply no_nan_key_check; reflexivity | reflexivity..].
Defined.

(* ===================================================================== *)
(** ** More on the route *)
(* ===================================================================== *)

Lemma route_sort_nil (field ascending : json) :
  Route.sort_income [] field ascending = inr [].
Proof. destruct field as [[| | | |]| |]; reflexivity. Qed.

(** The route on a query that decodes to an object whose [fields] is an
    object. *)
Lemma route_body_object (json_loads : string -> option json)
    (current_income : list record) (query : string) (d f : dict json) :
  json_loads query = Some (JDict d) -> raw_fields d = JDict f ->
  Route.filter_sort_body json_loads current_income query
  = Route.try_ (Route.of_result (filter_income current_income f))
      (fun filtered_data =>
         if py_truthy (raw_sort_field d)
         then Route.sort_income filtered_data (raw_sort_field d)
                (raw_ascending d)
         else inr filtered_data).
Proof.
  intros Hl Hf. unfold Route.filter_sort_body. rewrite Hl.
  cbn [Route.get Route.try_].
  fold (raw_fields d) (raw_sort_field d) (raw_ascending d).
  rewrite Hf. reflexivity.
Qed.

Lemma route_nonempty (json_loads : string -> option json)
    (current_income : list record) (query : string) :
  query <> "" ->
  Route.filter_sort_income json_loads current_income (Some query)
  = match Route.filter_sort_body json_loads current_income query with
    | inr filtered_data => Route.Data filtered_data 200
    | inl e => Route.Error e 400
    end.
Proof. destruct query; [contradiction | reflexivity]. Qed.

(** The typed route is the route on the queries that decode to an object
    with a string, a boolean and an object. *)
Lemma route_of_params (json_loads : string -> option json)
    (current_income : list record) (query : string) (q : params) :
  query <> "" -> json_loads query = Some (JDict (params_object q)) ->
  Route.filter_sort_income json_loads current_income (Some query)
  = route_response (filter_sort_income current_income q).
Proof.
  intros Hq Hl. rewrite (route_nonempty _ _ _ Hq).
  rewrite (route_body_object _ _ _ _ (query_fields q) Hl).
  - unfold filter_sort_income, filter_sort_body. fold (query_fields q).
    destruct (filter_income current_income (query_fields q)) as [d1|e];
      [|reflexivity].
    cbn [Route.of_result Route.try_ bind].
    destruct q as [[fld|] [asc|] [f|]]; cbn;
      try reflexivity;
      destruct (String.eqb fld ""); cbn; try reflexivity;
      destruct (sort_income d1 fld _); reflexivity.
  - destruct q as [[fld|] [asc|] [f|]]; reflexivity.
Qed.

(** X12: when the filters leave no record the route answers 200 with the
    empty list, whatever [sort_field] is: the field is never checked, so a
    field that no record has is not reported.  This holds of every query
    that decodes to an object whose [fields] is absent or an object; in
    particular the route answers such a query with 200 and the empty list
    on the empty dataset. *)
Theorem filter_sort_income_no_record (json_loads : string -> option json)
    (current_income : list record) (query : string) (d f : dict json) :
  query <> "" -> json_loads query = Some (JDict d) ->
  raw_fields d = JDict f ->
  (filter_income current_income f = Ok [] ->
   Route.filter_sort_income json_loads current_income (Some query)
   = Route.Data [] 200) /\
  Route.filter_sort_income json_loads [] (Some query) = Route.Data [] 200.
Proof.
  intros Hq Hl Hf.
  assert (H : forall data, filter_income data f = Ok [] ->
                Route.filter_sort_income json_loads data (Some query)
                = Route.Data [] 200).
  { intros data Hd. rewrite (route_nonempty _ _ _ Hq).
    rewrite (route_body_object _ _ _ _ _ Hl Hf), Hd.
    cbn [Route.of_result Route.try_].
    destruct (py_truthy (raw_sort_field d)); [|reflexivity].
    rewrite route_sort_nil. reflexivity. }
  split; [apply H|]. apply H. apply filter_loop_nil.
Qed.

Lemma filter_sort_income_no_record_witness :
  Route.filter_sort_income sample_loads
    [[("revenue", SInt 100); ("date", SStr "2020-09-26")]]
    (Some query_no_such_field)
  = Route.Data [] 200.
Proof.
  edestruct (filter_sort_income_no_record sample_loads
               [[("revenue", SInt 100); ("date", SStr "2020-09-26")]]
               query_no_such_field)
    as [H _]; [discriminate | reflexivity | reflexivity |].
  apply H. reflexivity.
Defined.

(** X13: what a 200 answer of the route holds.  The query was not empty
    and decoded to an object whose [fields] is absent or an object.  The
    body is a rearrangement of the records of the dataset that pass every
    range filter; when [sort_field] is absent or falsy it is those records
    in dataset order; when it is a non-empty string and no sort key of
    those records is a NaN, the sort keys of the body are in order,
    ascending when [ascending] is absent or truthy and descending
    otherwise. *)
Theorem filter_sort_income_data (json_loads : string -> option json)
    (current_income out : list record) (params : option string)
    (status : Z) :
  Route.filter_sort_income json_loads current_income params
  = Route.Data out status ->
  status = 200 /\
  exists query d f,
    params = Some query /\ query <> "" /\
    json_loads query = Some (JDict d) /\ raw_fields d = JDict f /\
    let kept := filter (passes f) current_income in
    Permutation out kept /\
    (py_truthy (raw_sort_field d) = false -> out = kept) /\
    (forall fld,
        raw_sort_field d = JAtom (SStr fld) -> fld <> "" ->
        no_nan_key fld kept ->
        exists keys, sort_keys fld out = Ok keys /\
                     keys_sorted (py_truthy (raw_ascending d)) keys).
Proof.
  intros H. destruct params as [query|]; [|discriminate H].
  assert (Hq : query <> "") by (intros ->; discriminate H).
  rewrite (route_nonempty _ _ _ Hq) in H.
  destruct (json_loads query) as [[a|l|d]|] eqn:Hl;
    try (unfold Route.filter_sort_body in H; rewrite Hl in H;
         discriminate H).
  destruct (raw_fields d) as [a|l|f] eqn:Hf;
    try (unfold Route.filter_sort_body in H; rewrite Hl in H;
         cbn [Route.get Route.try_] in H; fold (raw_fields d) in H;
         rewrite Hf in H; discriminate H).
  rewrite (route_body_object _ _ _ _ _ Hl Hf) in H.
  destruct (filter_income current_income f) as [d1|e] eqn:Hfi;
    [|discriminate H].
  apply filter_income_ok in Hfi. subst d1.
  cbn [Route.of_result Route.try_] in H.
  assert (Hb : (if py_truthy (raw_sort_field d)
                then Route.sort_income (filter (passes f) current_income)
                       (raw_sort_field d) (raw_ascending d)
                else inr (filter (passes f) current_income)) = inr out
               /\ status = 200).
  { destruct (if py_truthy (raw_sort_field d) then _ else _) as [e|body];
      [discriminate H|].
    inversion H. split; reflexivity. }
  clear H. destruct Hb as [Hb ->]. split; [reflexivity|].
  exists query, d, f.
  split; [reflexivity|]. split; [exact Hq|]. split; [exact Hl|].
  split; [exact Hf|].
  cbv zeta. generalize dependent (filter (passes f) current_income).
  intros kept Hb.
  destruct (py_truthy (raw_sort_field d)) eqn:Ht.
  - destruct (raw_sort_field d) as [[| | | |fld]| |] eqn:Hsf;
      try (destruct kept; cbn in Hb; [|discriminate Hb];
           inversion Hb; subst out;
           split; [reflexivity|]; split; [discriminate|];
           intros fld' E; discriminate E).
    cbn [Route.sort_income] in Hb.
    destruct (sort_income kept fld (py_truthy (raw_ascending d)))
      as [sorted|e] eqn:Hs; cbn in Hb; [|discriminate Hb].
    inversion Hb; subst sorted.
    split; [exact (sort_income_perm kept out fld _ Hs)|].
    split; [discriminate|].
    intros fld' E _ Hn. inversion E; subst fld'.
    exact (sort_income_order kept out fld _ Hn Hs).
  - inversion Hb; subst out. split; [reflexivity|].
    split; [reflexivity|].
    intros fld E Hne. rewrite E in Ht. cbn in Ht.
    apply negb_false_iff, String.eqb_eq in Ht. contradiction.
Qed.

Lemma filter_sort_income_data_witness :
  Permutation
    [[("revenue", SInt 300)]; [("revenue", SInt 200)]]
    (filter (passes [("revenue_min", JAtom (SInt 150));
                     ("revenue_max", JAtom (SInt 900))])
            [[("revenue", SInt 100)]; [("revenue", SInt 200)];
             [("revenue", SInt 300)]])
  /\ exists keys,
       sort_keys "revenue" [[("revenue", SInt 300)]; [("revenue", SInt 200)]]
       = Ok keys /\ keys_sorted false keys.
Proof.
  destruct (filter_sort_income_data sample_loads
              [[("revenue", SInt 100)]; [("revenue", SInt 200)];
               [("revenue", SInt 300)]]
              [[("revenue", SInt 300)]; [("revenue", SInt 200)]]
              (Some query_null_ascending) 200 eq_refl)
    as [_ [query [d [f [Hp [_ [Hl [Hf [Hperm [_ Hs]]]]]]]]]].
  inversion Hp; subst query. vm_compute in Hl. inversion Hl; subst d.
  vm_compute in Hf. inversion Hf; subst f.
  split; [exact Hperm|].
  apply (Hs "revenue" eq_refl); [discriminate|].
  apply no_nan_key_check. reflexivity.
Defined.

(** X18: what the route refuses, whatever the dataset.  Without a [query]
    argument, or with an empty one, it answers 400 with [Params required];
    it answers 400 with an error when [json.loads] raises, when the query
    decodes to anything but an object, and when [fields] is there and is
    anything but an object, [null] included. *)
Theorem filter_sort_income_refused (json_loads : string -> option json)
    (current_income : list record) :
  Route.filter_sort_income json_loads current_income None
  = Route.ParamsRequired 400 /\
  Route.filter_sort_income json_loads current_income (Some EmptyString)
  = Route.ParamsRequired 400 /\
  (forall query,
      query <> EmptyString -> json_loads query = None ->
      Route.filter_sort_income json_loads current_income (Some query)
      = Route.Error Route.LoadsError 400) /\
  (forall query v,
      query <> EmptyString -> json_loads query = Some v ->
      is_object v = false ->
      Route.filter_sort_income json_loads current_income (Some query)
      = Route.Error (Route.AttributeError v "get") 400) /\
  (forall query d,
      query <> EmptyString -> json_loads query = Some (JDict d) ->
      is_object (raw_fields d) = false ->
      Route.filter_sort_income json_loads current_income (Some query)
      = Route.Error (Route.AttributeError (raw_fields d) "items") 400).
Proof.
  split; [reflexivity|]. split; [reflexivity|]. split; [|split].
  - intros query Hq Hl. rewrite (route_nonempty _ _ _ Hq).
    unfold Route.filter_sort_body. rewrite Hl. reflexivity.
  - intros query v Hq Hl Hv. rewrite (route_nonempty _ _ _ Hq).
    unfold Route.filter_sort_body. rewrite Hl.
    destruct v as [a|l|d]; [reflexivity..|discriminate Hv].
  - intros query d Hq Hl Hv. rewrite (route_nonempty _ _ _ Hq).
    unfold Route.filter_sort_body. rewrite Hl.
    cbn [Route.get Route.try_]. fold (raw_fields d).
    destruct (raw_fields d) as [a|l|f]; [reflexivity..|discriminate Hv].
Qed.

Lemma filter_sort_income_refused_witness :
  Route.filter_sort_income sample_loads [] (Some query_null_fields)
  = Route.Error (Route.AttributeError (JAtom SNone) "items") 400
  /\ Route.filter_sort_income sample_loads [] (Some "[1]")
     = Route.Error (Route.AttributeError (JList [JAtom (SInt 1)]) "get") 400
  /\ Route.filter_sort_income sample_loads [] (Some "not json")
     = Route.Error Route.LoadsError 400.
Proof.
  split; [|split].
  - refine (proj2 (proj2 (proj2 (proj2
             (filter_sort_income_refused sample_loads []))))
             query_null_fields [("fields", JAtom SNone)] _ eq_refl eq_refl).
    discriminate.
  - refine (proj1 (proj2 (proj2 (proj2
             (filter_sort_income_refused sample_loads []))))
             "[1]" (JList [JAtom (SInt 1)]) _ eq_refl eq_refl).
    discriminate.
  - refine (proj1 (proj2 (proj2
             (filter_sort_income_refused sample_loads []))) "not json" _
             eq_refl).
    discriminate.
Defined.

(* ===================================================================== *)
(** ** The company profiles *)
(* ===================================================================== *)

Lemma str_lstrip_app (s t : string) :
  str_lstrip (s ++ t) =
  match str_lstrip s with
  | EmptyString => str_lstrip t
  | u => u ++ t
  end.
Proof.
  induction s as [|c s IH]; simpl.
  - destruct (str_lstrip t); reflexivity.
  - destruct (is_strip_space c); [exact IH | reflexivity].
Qed.

Lemma str_lstrip_space (s : string) :
  all_space s = true -> str_lstrip s = EmptyString.
Proof.
  induction s as [|c s IH]; simpl; [reflexivity|].
  intros H. apply andb_prop in H. destruct H as [-> H]. auto.
Qed.

Lemma str_rstrip_space (s : string) :
  all_space s = true -> str_rstrip s = EmptyString.
Proof.
  induction s as [|c s IH]; simpl; [reflexivity|].
  intros H. apply andb_prop in H. destruct H as [-> H].
  rewrite (IH H). reflexivity.
Qed.

Lemma str_rstrip_app_space (s pad : string) :
  all_space pad = true -> str_rstrip (s ++ pad) = str_rstrip s.
Proof.
  intros H. induction s as [|c s IH]; simpl.
  - apply str_rstrip_space. exact H.
  - rewrite IH. reflexivity.
Qed.

Lemma str_lstrip_all_space (s : string) :
  str_lstrip s = EmptyString -> all_space s = true.
Proof.
  induction s as [|c s IH]; simpl; [reflexivity|].
  destruct (is_strip_space c); [exact IH | discriminate].
Qed.

(** [strip] does not see white space around a string. *)
Lemma str_strip_padded (pad1 s pad2 : string) :
  all_space pad1 = true -> all_space pad2 = true ->
  str_strip (pad1 ++ s ++ pad2) = str_strip s.
Proof.
  intros H1 H2. unfold str_strip.
  rewrite str_lstrip_app, (str_lstrip_space pad1 H1).
  rewrite str_lstrip_app.
  destruct (str_lstrip s) as [|c u] eqn:Hs.
  - rewrite (str_lstrip_space pad2 H2). reflexivity.
  - apply (str_rstrip_app_space (String c u) pad2 H2).
Qed.

Lemma next_match_ext (s1 s2 : option string) (bulk : list profile) :
  (forall p, symbol_matches s1 p = symbol_matches s2 p) ->
  next_match s1 bulk = next_match s2 bulk.
Proof.
  intros H. induction bulk as [|p bulk IH]; simpl; [reflexivity|].
  rewrite H, IH. reflexivity.
Qed.

(** X14: the lookup of [fetch_data] ignores white space around the query:
    a symbol padded on both sides with the white space [strip] removes gets
    the same answer, and leaves the same profiles, as the symbol itself. *)
Theorem fetch_data_ignores_padding (remote : option (list profile))
    (bulk_profiles : list profile) (pad1 s pad2 : string) :
  all_space pad1 = true -> all_space pad2 = true ->
  fetch_data remote bulk_profiles (Some (pad1 ++ s ++ pad2))
  = fetch_data remote bulk_profiles (Some s).
Proof.
  intros H1 H2. unfold fetch_data.
  rewrite (next_match_ext (Some (pad1 ++ s ++ pad2)) (Some s)); [reflexivity|].
  intros p. unfold symbol_matches.
  rewrite (str_strip_padded pad1 s pad2 H1 H2). reflexivity.
Qed.

Lemma fetch_data_ignores_padding_witness :
  fetch_data None
    [[("symbol", SStr "MSFT"); ("companyName", SStr "Microsoft")];
     [("symbol", SStr " AAPL"); ("companyName", SStr "Apple")]]
    (Some ("  " ++ "AAPL" ++ " "))
  = fetch_data None
      [[("symbol", SStr "MSFT"); ("companyName", SStr "Microsoft")];
       [("symbol", SStr " AAPL"); ("companyName", SStr "Apple")]]
      (Some "AAPL").
Proof.
  apply fetch_data_ignores_padding; reflexivity.
Defined.

Lemma next_match_some (symbol : option string) (bulk : list profile)
    (p : profile) :
  next_match symbol bulk = inr (Some p) ->
  exists before after,
    bulk = (before ++ p :: after)%list /\ is_match symbol p /\
    forall p', In p' before -> symbol_matches symbol p' = inr false.
Proof.
  unfold is_match. induction bulk as [|p0 bulk IH]; simpl; [discriminate|].
  destruct (symbol_matches symbol p0) as [e|[|]] eqn:H0; [discriminate| |].
  - intros H. inversion H; subst. exists [], bulk.
    split; [reflexivity|]. split; [exact H0 | intros ? []].
  - intros H. destruct (IH H) as [before [after [-> [Hm Hb]]]].
    exists (p0 :: before), after. split; [reflexivity|].
    split; [exact Hm|]. intros p' [<-|Hp']; auto.
Qed.

Lemma next_match_none (symbol : option string) (bulk : list profile) :
  next_match symbol bulk = inr None ->
  forall p, In p bulk -> symbol_matches symbol p = inr false.
Proof.
  induction bulk as [|p0 bulk IH]; simpl; [intros _ ? []|].
  destruct (symbol_matches symbol p0) as [e|[|]] eqn:H0; try discriminate.
  intros H p [<-|Hp]; auto.
Qed.

Lemma is_match_nonempty (symbol : option string) (p : profile) :
  is_match symbol p -> p <> [].
Proof. intros H ->. discriminate H. Qed.

(** X15: the company [fetch_data] answers with.  A 200 answer holds the
    first of the searched profiles whose stripped [symbol] equals the
    stripped query; a 404 answer means every searched profile has a string
    [symbol] that differs from the query.  The searched profiles, which
    are also the global the call leaves, are the cached ones, or the
    remote rows when nothing was cached. *)
Theorem fetch_data_first_match (remote : option (list profile))
    (bulk_profiles bulk' : list profile) (symbol : option string)
    (answer : lookup_response) :
  fetch_data remote bulk_profiles symbol = (inr answer, bulk') ->
  bulk' = searched_profiles remote bulk_profiles /\
  match answer with
  | Company p status =>
      status = 200 /\
      exists before after,
        bulk' = (before ++ p :: after)%list /\ is_match symbol p /\
        forall p', In p' before -> symbol_matches symbol p' = inr false
  | NotFound status =>
      status = 404 /\
      forall p, In p bulk' -> symbol_matches symbol p = inr false
  end.
Proof.
  unfold fetch_data. fold (searched_profiles remote bulk_profiles).
  remember (searched_profiles remote bulk_profiles) as bulk eqn:Hb.
  clear Hb.
  destruct (next_match symbol bulk) as [e|[p|]] eqn:Hn.
  - discriminate.
  - pose proof (next_match_some symbol bulk p Hn) as Hsome.
    destruct Hsome as [before [after [Hsplit [Hm Hbefore]]]].
    pose proof (is_match_nonempty symbol p Hm) as Hne.
    destruct p as [|item p]; [contradiction|].
    intros H. inversion H; subst answer bulk'. split; [reflexivity|].
    split; [reflexivity|]. exists before, after. auto.
  - intros H. inversion H; subst. split; [reflexivity|].
    split; [reflexivity|]. exact (next_match_none symbol _ Hn).
Qed.

Lemma fetch_data_first_match_witness :
  exists before after,
    [[("symbol", SStr "MSFT")];
     [("symbol", SStr "AAPL "); ("price", SStr "1")];
     [("symbol", SStr "AAPL"); ("price", SStr "2")]]
    = (before ++ [("symbol", SStr "AAPL "); ("price", SStr "1")] :: after)%list
    /\ is_match (Some "AAPL") [("symbol", SStr "AAPL "); ("price", SStr "1")]
    /\ forall p', In p' before -> symbol_matches (Some "AAPL") p' = inr false.
Proof.
  destruct (fetch_data_first_match
              (Some [[("symbol", SStr "MSFT")];
                     [("symbol", SStr "AAPL "); ("price", SStr "1")];
                     [("symbol", SStr "AAPL"); ("price", SStr "2")]])
              [] _ (Some "AAPL")
              (Company [("symbol", SStr "AAPL "); ("price", SStr "1")] 200)
              eq_refl) as [_ [_ H]].
  exact H.
Defined.

(** X16: a request without [query] is not answered when there is a profile
    to search: the first profile makes [fetch_data] raise, a [KeyError]
    when it has no [symbol], an [AttributeError] otherwise.  With nothing
    to search the answer is 404. *)
Theorem fetch_data_without_query (remote : option (list profile))
    (bulk_profiles : list profile) :
  (forall p rest,
      searched_profiles remote bulk_profiles = p :: rest ->
      fetch_data remote bulk_profiles None
      = (inl (if dict_mem p "symbol" then AttributeError
              else MissingKey "symbol"), p :: rest)) /\
  (searched_profiles remote bulk_profiles = [] ->
   fetch_data remote bulk_profiles None = (inr (NotFound 404), [])).
Proof.
  unfold fetch_data. fold (searched_profiles remote bulk_profiles).
  split.
  - intros p rest ->. cbn [next_match]. unfold symbol_matches, dict_mem.
    destruct (dict_find p "symbol") as [v|]; [|reflexivity].
    destruct v; reflexivity.
  - intros ->. reflexivity.
Qed.

Lemma fetch_data_without_query_witness :
  fetch_data (Some [[("symbol", SStr "AAPL")]]) [] None
  = (inl AttributeError, [[("symbol", SStr "AAPL")]])
  /\ fetch_data None [] None = (inr (NotFound 404), []).
Proof.
  destruct (fetch_data_without_query (Some [[("symbol", SStr "AAPL")]]) [])
    as [H _].
  destruct (fetch_data_without_query None []) as [_ H'].
  split; [exact (H _ _ eq_refl) | exact (H' eq_refl)].
Defined.

(* ===================================================================== *)
(** ** Sorting by a date that is not a date *)
(* ===================================================================== *)

Lemma sort_key_date_raise (r : record) (e : exn) :
  dict_mem r "date" = true -> sort_key "date" r = Raise e ->
  exists s, e = IntLiteralError s.
Proof.
  unfold dict_mem, sort_key, dict_item.
  destruct (dict_find r "date") as [v|]; [|discriminate]. intros _.
  cbn [bind String.eqb Ascii.eqb Bool.eqb andb].
  destruct v; cbn [is_str py_slice4 bind]; try discriminate.
  unfold py_int. destruct (int_literal _); cbn [bind]; [discriminate|].
  intros H. inversion H. eauto.
Qed.

Lemma list_map_r_fails {A B : Type} (f : A -> result B) (l : list A)
    (x : A) (e : exn) :
  In x l -> f x = Raise e ->
  exists y e', In y l /\ f y = Raise e' /\ list_map_r f l = Raise e'.
Proof.
  intros Hin Hx. destruct (list_map_r f l) as [ys|e'] eqn:H.
  - apply list_map_r_ok in H. exfalso. revert x Hin Hx.
    induction H as [|a b l ys Hab _ IH]; intros x [].
    + subst. congruence.
    + eauto.
  - apply list_map_r_raise in H. destruct H as [y [Hy1 Hy2]]. eauto.
Qed.

(** X17: sorting by [date] raises on a date that has no year.  When every
    record has a [date] and the [date] of one of them is a string whose
    first four characters are not an integer literal, [sort_income] by
    [date] raises the [ValueError] of [int], in both directions; it does
    not return, and it does not skip the record. *)
Theorem sort_by_date_raises_on_bad_date (data : list record) (r : record)
    (ascending : bool) :
  (forall r', In r' data -> dict_mem r' "date" = true) ->
  In r data -> bad_date r -> is_str (dict_get r "date" SNone) = true ->
  exists s, sort_income data "date" ascending = Raise (IntLiteralError s).
Proof.
  intros Hall Hin Hbad Hstr.
  assert (Hr : exists e, sort_key "date" r = Raise e).
  { unfold bad_date in Hbad. unfold dict_get in Hstr.
    unfold sort_key, dict_item.
    destruct (dict_find r "date") as [v|]; [|contradiction].
    destruct v; try discriminate.
    cbn [bind String.eqb Ascii.eqb Bool.eqb andb is_str py_slice4].
    unfold py_int. rewrite Hbad. cbn [bind]. eauto. }
  destruct Hr as [e He].
  destruct (list_map_r_fails (sort_key "date") data r e Hin He)
    as [y [e' [Hy [Hye Hmap]]]].
  destruct (sort_key_date_raise y e' (Hall y Hy) Hye) as [s ->].
  exists s. unfold sort_income. destruct data as [|first rest];
    [contradiction|].
  rewrite (Hall first (or_introl eq_refl)). cbn [negb].
  unfold py_sorted. rewrite Hmap. reflexivity.
Qed.

Lemma sort_by_date_raises_on_bad_date_witness :
  exists s,
    sort_income
      [[("date", SStr "2020-09-26")]; [("date", SStr "Q3 2021")]]
      "date" true
    = Raise (IntLiteralError s).
Proof.
  apply (sort_by_date_raises_on_bad_date _ [("date", SStr "Q3 2021")]).
  - intros r' [<-|[<-|[]]]; reflexivity.
  - right. left. reflexivity.
  - reflexivity.
  - reflexivity.
Defined.
